(** * Text-complexity metrics for Russian text: a shallow embedding

    The development follows the Python sources module by module:

    - [Py]: the fragment of the Python runtime the analyzers rely on
      (strings as sequences of code points, [str.strip], the [re] patterns
      the sources use, binary64 floats with [round], [min], [max],
      [collections.Counter], result dictionaries);
    - [TextComplexityMetrics]      (core/analyze/textComplexityMetrics.py);
    - [DescriptiveTextMetrics]     (core/analyze/descriptiveTextMetrics.py);
    - [Readability]                (core/analyze/ReadabilityIndexCalculator.py,
                                    which defines [TextComplexityMetrics]
                                    once more and adds
                                    [ReadabilityIndexCalculator]);
    - [MorphoMetrics]              (core/analyze/morpho_metrics.py).

    Python [float] is IEEE-754 binary64, which is exactly Rocq's primitive
    [float]; Python [int] is [Z]; a [str] is a list of Unicode code points. *)

From Stdlib Require Import ZArith NArith List String Ascii Bool Lia Floats.
From stdpp Require Import gmap strings list fin_maps.

Set Warnings "-inexact-float".

Local Open Scope Z_scope.

(* ===================================================================== *)
(** * The Python fragment                                                 *)
(* ===================================================================== *)

Module Py.

(** ** Strings *)

(** A code point of a Python [str]. *)
Definition codepoint := N.

(** A Python [str]: an immutable sequence of code points. *)
Definition str := list codepoint.

(** [len(x)] as a Python [int]. *)
Definition len {A} (l : list A) : Z := Z.of_nat (length l).

(** Source literals are written as UTF-8 byte strings; [u] decodes one into
    the [str] it denotes (1- to 4-byte sequences; a byte that starts no
    sequence is kept as it is). *)
Fixpoint utf8_decode (fuel : nat) (bs : list N) : str :=
  match fuel with
  | O => []
  | S fuel =>
    match bs with
    | [] => []
    | b0 :: bs1 =>
      if (b0 <? 128)%N then b0 :: utf8_decode fuel bs1
      else if (b0 <? 224)%N then
        match bs1 with
        | b1 :: bs2 =>
            ((b0 - 192) * 64 + (b1 - 128))%N :: utf8_decode fuel bs2
        | _ => b0 :: utf8_decode fuel bs1
        end
      else if (b0 <? 240)%N then
        match bs1 with
        | b1 :: b2 :: bs3 =>
            ((b0 - 224) * 4096 + (b1 - 128) * 64 + (b2 - 128))%N
              :: utf8_decode fuel bs3
        | _ => b0 :: utf8_decode fuel bs1
        end
      else
        match bs1 with
        | b1 :: b2 :: b3 :: bs4 =>
            ((b0 - 240) * 262144 + (b1 - 128) * 4096
             + (b2 - 128) * 64 + (b3 - 128))%N :: utf8_decode fuel bs4
        | _ => b0 :: utf8_decode fuel bs1
        end
    end
  end.

Fixpoint bytes_of_string (s : string) : list N :=
  match s with
  | EmptyString => []
  | String a s' => N_of_ascii a :: bytes_of_string s'
  end.

Definition u (s : string) : str :=
  let bs := bytes_of_string s in utf8_decode (length bs) bs.

(** [c in s] for a one-character [c]. *)
Definition char_in (c : codepoint) (s : str) : bool :=
  existsb (N.eqb c) s.

(** Whitespace in the sense of [str.isspace], [str.strip] and the pattern
    [\s]: the code points CPython's [_PyUnicode_IsWhitespace] accepts. *)
Definition isspace (c : codepoint) : bool :=
  ((9 <=? c) && (c <=? 13) || (28 <=? c) && (c <=? 32)
   || (c =? 133) || (c =? 160) || (c =? 5760)
   || (8192 <=? c) && (c <=? 8202)
   || (c =? 8232) || (c =? 8233) || (c =? 8239) || (c =? 8287)
   || (c =? 12288))%N.

Fixpoint lstrip (s : str) : str :=
  match s with
  | c :: s' => if isspace c then lstrip s' else s
  | [] => []
  end.

(** [s.strip()] *)
Definition strip (s : str) : str := rev (lstrip (rev (lstrip s))).

(** [s.endswith(suffix)] *)
Fixpoint startswith (s p : str) : bool :=
  match p, s with
  | [], _ => true
  | a :: p', b :: s' => (a =? b)%N && startswith s' p'
  | _ :: _, [] => false
  end.

Definition endswith (s suffix : str) : bool := startswith (rev s) (rev suffix).

(** [needle in hay] for strings: substring test. *)
Fixpoint contains (hay needle : str) : bool :=
  startswith hay needle ||
  match hay with
  | [] => false
  | _ :: hay' => contains hay' needle
  end.

(** The tables of the Unicode character database the sources reach through
    [str.lower] and through the pattern [\b] ([\w] is [isalnum] or [_]). *)
Class UCD := {
  lower : str -> str;
  isalnum : codepoint -> bool
}.

(** The two tables on Basic Latin and on the Cyrillic letters U+0400..U+0481;
    every other code point is left as it is and is no word character. *)
Definition lower_basic (c : codepoint) : codepoint :=
  if ((65 <=? c) && (c <=? 90))%N then (c + 32)%N
  else if ((1040 <=? c) && (c <=? 1071))%N then (c + 32)%N
  else if ((1024 <=? c) && (c <=? 1039))%N then (c + 80)%N
  else if ((1120 <=? c) && (c <=? 1153) && N.even c)%N then (c + 1)%N
  else c.

Definition isalnum_basic (c : codepoint) : bool :=
  ((48 <=? c) && (c <=? 57) || (65 <=? c) && (c <=? 90)
   || (97 <=? c) && (c <=? 122) || (1024 <=? c) && (c <=? 1153))%N.

Definition ucd_basic : UCD :=
  {| lower := map lower_basic; isalnum := isalnum_basic |}.

(** ** Regular expressions

    The patterns of the sources use character sets, [\b], [^] under
    [re.MULTILINE], sequencing and the greedy [*] and [+]. The matcher is a
    backtracking one, like [re]: [rmatch r prev s k] matches [r] at the
    position whose preceding character is [prev] and whose remaining input
    is [s], and hands the position after the match to [k]; a failing [k]
    makes the matcher try the next shorter alternative. *)

Inductive regex :=
| RSet (p : codepoint -> bool)
| RWordB
| RBol
| RSeq (r1 r2 : regex)
| RStar (r : regex).

Definition RPlus (r : regex) : regex := RSeq r (RStar r).
Definition RChr (c : codepoint) : regex := RSet (N.eqb c).

Section Matcher.
Context {U : UCD}.

Definition is_word (c : option codepoint) : bool :=
  match c with
  | Some c => isalnum c || (c =? 95)%N
  | None => false
  end.

Fixpoint rmatch (r : regex) (prev : option codepoint) (s : str)
    (k : option codepoint -> str -> option str) {struct r} : option str :=
  match r with
  | RSet p =>
      match s with
      | c :: s' => if p c then k (Some c) s' else None
      | [] => None
      end
  | RWordB => if xorb (is_word prev) (is_word (head s)) then k prev s else None
  | RBol =>
      match prev with
      | None => k prev s
      | Some c => if (c =? 10)%N then k prev s else None
      end
  | RSeq r1 r2 => rmatch r1 prev s (fun prev' s' => rmatch r2 prev' s' k)
  | RStar r1 =>
      (fix loop (fuel : nat) (prev : option codepoint) (s : str) : option str :=
         match fuel with
         | O => k prev s
         | S fuel =>
           match rmatch r1 prev s
                   (fun prev' s' =>
                      if (length s' <? length s)%nat then loop fuel prev' s'
                      else None) with
           | Some rest => Some rest
           | None => k prev s
           end
         end) (length s) prev s
  end.

(** The match of [r] that starts at the current position, if any: the
    matched text and the input after it. *)
Definition match_here (r : regex) (prev : option codepoint) (s : str)
    : option (str * str) :=
  match rmatch r prev s (fun _ rest => Some rest) with
  | Some rest => Some (take (length s - length rest) s, rest)
  | None => None
  end.

(** [re.findall(r, s)] for a pattern without capture groups: the
    non-overlapping matches, leftmost first. *)
Fixpoint findall_from (fuel : nat) (r : regex) (prev : option codepoint)
    (s : str) : list str :=
  match fuel with
  | O => []
  | S fuel =>
    match match_here r prev s, s with
    | Some (c :: m, rest), _ =>
        (c :: m) :: findall_from fuel r (Some (List.last m c)) rest
    | Some ([], _), c :: s' => [] :: findall_from fuel r (Some c) s'
    | Some ([], _), [] => [[]]
    | None, c :: s' => findall_from fuel r (Some c) s'
    | None, [] => []
    end
  end.

Definition findall (r : regex) (s : str) : list str :=
  findall_from (S (length s)) r None s.

(** [re.split(r, s)] for a pattern without capture groups that matches
    no empty string: the pieces of [s] between the matches. *)
Fixpoint split_from (fuel : nat) (r : regex) (prev : option codepoint)
    (s : str) (piece : str) : list str :=
  match fuel with
  | O => [piece]
  | S fuel =>
    match s with
    | [] => [piece]
    | c :: s' =>
      match match_here r prev s with
      | Some (c' :: m, rest) =>
          piece :: split_from fuel r (Some (List.last m c')) rest []
      | _ => split_from fuel r (Some c) s' (piece ++ [c])
      end
    end
  end.

Definition split (r : regex) (s : str) : list str :=
  split_from (S (length s)) r None s [].
End Matcher.

(** ** Numbers

    [float] is binary64 with round-to-nearest-even, so [+], [-], [*] and [/]
    on floats are the primitive operations. The conversions below go through
    the exact specification ([SpecFloat]) so that they round once, as
    CPython does. *)

(** An [int] as an (unnormalised) binary float with exponent 0. *)
Definition int_sf (z : Z) : spec_float :=
  match z with
  | Z0 => S754_zero false
  | Zpos p => S754_finite false p 0
  | Zneg p => S754_finite true p 0
  end.

(** [float(z)]: the nearest double, ties to even. *)
Definition of_int (z : Z) : float :=
  SF2Prim (binary_normalize prec emax z 0 false).

(** [a / b] on two ints: the correctly rounded quotient. Every call site in
    the sources sits behind a test that the divisor is not zero (Python would
    raise ZeroDivisionError there). *)
Definition truediv (a b : Z) : float :=
  SF2Prim (SFdiv prec emax (int_sf a) (int_sf b)).

(** [min(a, b)] and [max(a, b)]: the first argument is kept unless the second
    compares strictly smaller (larger); a NaN second argument never does. *)
Definition py_min (a b : float) : float := if (b <? a)%float then b else a.
Definition py_max (a b : float) : float := if (a <? b)%float then b else a.

(** The integer nearest to [num / den] ([den > 0]), ties to even. *)
Definition div_half_even (num den : Z) : Z :=
  let q := num / den in
  let r := num mod den in
  match 2 * r ?= den with
  | Lt => q
  | Gt => q + 1
  | Eq => if Z.even q then q else q + 1
  end.

(** [round(x, ndigits)] for a float [x] and [ndigits >= 0]: the exact value
    of [x] is rounded half-even to [ndigits] decimals and the decimal result
    is converted back to the nearest double (CPython's [double_round], which
    goes through a correctly rounded decimal string). Infinities and NaN
    round to themselves. [decimal_to_float s n p] is the double nearest to
    the decimal [n / p], with sign [s]. *)
Definition decimal_to_float (s : bool) (n p : Z) : float :=
  match n with
  | Zpos n' => SF2Prim (SFdiv prec emax (S754_finite s n' 0) (int_sf p))
  | _ => SF2Prim (S754_zero s)
  end.

Definition py_round (x : float) (ndigits : Z) : float :=
  match Prim2SF x with
  | S754_finite s m e =>
      let p := 10 ^ ndigits in
      let n :=
        if 0 <=? e then Zpos m * 2 ^ e * p
        else div_half_even (Zpos m * p) (2 ^ (- e)) in
      decimal_to_float s n p
  | _ => x
  end.

(** ** Values and result dictionaries *)

(** The values the analyzers put in their results. [VDict] is a dictionary
    from ints to ints (the syllable distribution). *)
Inductive value :=
| VInt (z : Z)
| VFloat (f : float)
| VStr (s : str)
| VBool (b : bool)
| VDict (d : gmap Z Z).

(** [round(v, ndigits)] on a number: an int rounds to itself. *)
Definition round_value (v : value) (ndigits : Z) : value :=
  match v with
  | VFloat f => VFloat (py_round f ndigits)
  | _ => v
  end.

(** Equality of two strings. *)
Fixpoint str_eqb (a b : str) : bool :=
  match a, b with
  | [], [] => true
  | x :: a', y :: b' => (x =? y)%N && str_eqb a' b'
  | _, _ => false
  end.

(** A result mapping: the entries of the dict literal, in source order. *)
Definition dict := list (str * value).

(** [d[key]], when the key is present. *)
Fixpoint dict_get (d : dict) (key : str) : option value :=
  match d with
  | [] => None
  | (k, v) :: d' => if str_eqb k key then Some v else dict_get d' key
  end.

Definition keys (d : dict) : list str := map fst d.

(** Truth value of a sequence: it is not empty. *)
Definition truthy {A} (l : list A) : bool :=
  match l with [] => false | _ :: _ => true end.

(** [sum(xs)] over ints. *)
Definition sum (xs : list Z) : Z := fold_left Z.add xs 0.

(** [sum(1 for x in xs if p x)] *)
Definition count {A} (p : A -> bool) (xs : list A) : Z :=
  len (List.filter p xs).

(** ** [collections.Counter] *)

(** [Counter(xs)]: one pass over [xs], each element bumps its entry. *)
Definition Counter (xs : list str) : gmap str Z :=
  fold_left (fun c x => <[x := default 0 (c !! x) + 1]> c) xs ∅.

(** [counter[key]]: a missing key counts 0. *)
Definition counter_get (c : gmap str Z) (key : str) : Z :=
  default 0 (c !! key).

End Py.

(* ===================================================================== *)
(** * core/analyze/textComplexityMetrics.py                               *)
(* ===================================================================== *)

(** [compute] takes a [str]; the branch for a [text] that is no [str] is
    outside the embedding. *)
Module TextComplexityMetrics.
Import Py.

(** The class body, as it stands in both files that define it. *)
Section Analyzer.
Context {U : UCD}.

(** The set [[.!?]]. *)
Definition terminator (c : codepoint) : bool := char_in c (u ".!?").

(** [re.split(r'[.!?]+', text)], then the stripped non-blank pieces. *)
Definition _split_sentences (text : str) : list str :=
  let sentences := split (RPlus (RSet terminator)) text in
  map strip (List.filter (fun s => truthy (strip s)) sentences).

(** The set [[а-яА-ЯёЁa-zA-Z]]. *)
Definition letter (c : codepoint) : bool :=
  ((1072 <=? c) && (c <=? 1103) || (1040 <=? c) && (c <=? 1071)
   || (c =? 1105) || (c =? 1025)
   || (97 <=? c) && (c <=? 122) || (65 <=? c) && (c <=? 90))%N.

(** [\b[а-яА-ЯёЁa-zA-Z]+(?:-[а-яА-ЯёЁa-zA-Z]+)*\b] *)
Definition word_re : regex :=
  RSeq RWordB
    (RSeq (RPlus (RSet letter))
       (RSeq (RStar (RSeq (RChr 45%N) (RPlus (RSet letter)))) RWordB)).

Definition _split_words (sentence : str) : list str :=
  findall word_re sentence.

Definition vowels : str := u "аеёиоуыэюя".

Definition _count_syllables_ru (word : str) : Z :=
  let word := lower word in
  Z.max 1 (count (fun char => char_in char vowels) word).

Definition compute (text : str) : dict :=
  if negb (truthy (strip text)) then
    [ (u "avg_sentence_length", VFloat 0.0);
      (u "avg_word_syllables", VFloat 0.0);
      (u "avg_word_letters", VFloat 0.0);
      (u "sentence_count", VInt 0);
      (u "word_count", VInt 0);
      (u "char_count", VInt (len text));
      (u "confidence_hint", VFloat 0.0) ]
  else
    let sentences := _split_sentences text in
    let words := flat_map _split_words sentences in
    let avg_sent_len :=
      if truthy sentences then VFloat (truediv (len words) (len sentences))
      else VInt 0 in
    let syllables := map _count_syllables_ru words in
    let avg_syllables :=
      if truthy syllables then VFloat (truediv (sum syllables) (len syllables))
      else VInt 0 in
    let letters := map len words in
    let avg_letters :=
      if truthy letters then VFloat (truediv (sum letters) (len letters))
      else VInt 0 in
    let confidence := 1.0%float in
    let confidence := if len sentences <? 2 then 0.5%float else confidence in
    let confidence := if len words <? 5 then 0.3%float else confidence in
    [ (u "Средняя длина предложения (avg_sentence_length)", round_value avg_sent_len 2);
      (u "Средняя длина слова (в слогах) (avg_word_syllables)", round_value avg_syllables 2);
      (u "Средняя длина слова (в буквах) (аvg_word_letters)", round_value avg_letters 2);
      (u "sentence_count", VInt (len sentences));
      (u "word_count", VInt (len words));
      (u "char_count", VInt (len text));
      (u "confidence_hint", VFloat (py_round confidence 2)) ].

End Analyzer.

End TextComplexityMetrics.

(* ===================================================================== *)
(** * core/analyze/descriptiveTextMetrics.py                              *)
(* ===================================================================== *)

Module DescriptiveTextMetrics.
Import Py.

Section Analyzer.
Context {U : UCD}.

Definition terminator (c : codepoint) : bool := char_in c (u ".!?").

Definition _split_sentences (text : str) : list str :=
  let sentences := split (RPlus (RSet terminator)) text in
  map strip (List.filter (fun s => truthy (strip s)) sentences).

(** The set [[а-яё]]. *)
Definition cyr_lower (c : codepoint) : bool :=
  ((1072 <=? c) && (c <=? 1103) || (c =? 1105))%N.

(** [\b[а-яё]+(?:-[а-яё]+)*\b] *)
Definition word_re : regex :=
  RSeq RWordB
    (RSeq (RPlus (RSet cyr_lower))
       (RSeq (RStar (RSeq (RChr 45%N) (RPlus (RSet cyr_lower)))) RWordB)).

Definition _extract_words (text : str) : list str :=
  findall word_re (lower text).

Definition vowels : str := u "аеёиоуыэюя".

Definition _count_syllables_ru (word : str) : Z :=
  Z.max 1 (count (fun ch => char_in ch vowels) word).

(** The loop [for sc in syllable_counts: distribution[sc] =
    distribution.get(sc, 0) + 1], from the empty dict. *)
Definition group_by_syllables (syllable_counts : list Z) : gmap Z Z :=
  fold_left (fun distribution sc =>
               <[sc := default 0 (distribution !! sc) + 1]> distribution)
            syllable_counts ∅.

(** [distribution.get(k, 0)] *)
Definition get0 (distribution : gmap Z Z) (k : Z) : Z :=
  default 0 (distribution !! k).

(** [sum(v for k, v in distribution.items() if k >= 4)] *)
Definition sum_ge4 (distribution : gmap Z Z) : Z :=
  map_fold (fun k v acc => if 4 <=? k then v + acc else acc) 0 distribution.

Definition compute (text : str) : dict :=
  if negb (truthy (strip text)) then
    [ (u "word_forms_total", VInt 0);
      (u "unique_words", VInt 0);
      (u "sentence_count", VInt 0);
      (u "monosyllabic_words", VInt 0);
      (u "disyllabic_words", VInt 0);
      (u "trisyllabic_words", VInt 0);
      (u "polysyllabic_words", VInt 0);
      (u "word_syllable_distribution", VDict ∅) ]
  else
    let sentences := _split_sentences text in
    let all_words := _extract_words text in
    let unique_words : gset str := list_to_set all_words in
    let syllable_counts := map _count_syllables_ru all_words in
    let distribution := group_by_syllables syllable_counts in
    [ (u "word_forms_total", VInt (len all_words));
      (u "Уникальные слова (unique_words)", VInt (Z.of_nat (size unique_words)));
      (u "sentence_count", VInt (len sentences));
      (u "monosyllabic_words", VInt (get0 distribution 1));
      (u "disyllabic_words", VInt (get0 distribution 2));
      (u "trisyllabic_words", VInt (get0 distribution 3));
      (u "polysyllabic_words", VInt (sum_ge4 distribution));
      (u "word_syllable_distribution", VDict distribution);
      (u "lexical_diversity",
       VFloat (if truthy all_words
               then py_round (truediv (Z.of_nat (size unique_words))
                                      (len all_words)) 3
               else 0.0%float)) ].

End Analyzer.

End DescriptiveTextMetrics.

(* ===================================================================== *)
(** * core/analyze/ReadabilityIndexCalculator.py                          *)
(* ===================================================================== *)

(** The file defines [TextComplexityMetrics] a second time and then the
    index calculator. (Its own copy of [DescriptiveTextMetrics] is only
    instantiated, never called, by the calculator.) *)
Module Readability.

Module TextComplexityMetrics.
Import Py.
(** The class body, as it stands in both files that define it. *)
Section Analyzer.
Context {U : UCD}.

(** The set [[.!?]]. *)
Definition terminator (c : codepoint) : bool := char_in c (u ".!?").

(** [re.split(r'[.!?]+', text)], then the stripped non-blank pieces. *)
Definition _split_sentences (text : str) : list str :=
  let sentences := split (RPlus (RSet terminator)) text in
  map strip (List.filter (fun s => truthy (strip s)) sentences).

(** The set [[а-яА-ЯёЁa-zA-Z]]. *)
Definition letter (c : codepoint) : bool :=
  ((1072 <=? c) && (c <=? 1103) || (1040 <=? c) && (c <=? 1071)
   || (c =? 1105) || (c =? 1025)
   || (97 <=? c) && (c <=? 122) || (65 <=? c) && (c <=? 90))%N.

(** [\b[а-яА-ЯёЁa-zA-Z]+(?:-[а-яА-ЯёЁa-zA-Z]+)*\b] *)
Definition word_re : regex :=
  RSeq RWordB
    (RSeq (RPlus (RSet letter))
       (RSeq (RStar (RSeq (RChr 45%N) (RPlus (RSet letter)))) RWordB)).

Definition _split_words (sentence : str) : list str :=
  findall word_re sentence.

Definition vowels : str := u "аеёиоуыэюя".

Definition _count_syllables_ru (word : str) : Z :=
  let word := lower word in
  Z.max 1 (count (fun char => char_in char vowels) word).

Definition compute (text : str) : dict :=
  if negb (truthy (strip text)) then
    [ (u "avg_sentence_length", VFloat 0.0);
      (u "avg_word_syllables", VFloat 0.0);
      (u "avg_word_letters", VFloat 0.0);
      (u "sentence_count", VInt 0);
      (u "word_count", VInt 0);
      (u "char_count", VInt (len text));
      (u "confidence_hint", VFloat 0.0) ]
  else
    let sentences := _split_sentences text in
    let words := flat_map _split_words sentences in
    let avg_sent_len :=
      if truthy sentences then VFloat (truediv (len words) (len sentences))
      else VInt 0 in
    let syllables := map _count_syllables_ru words in
    let avg_syllables :=
      if truthy syllables then VFloat (truediv (sum syllables) (len syllables))
      else VInt 0 in
    let letters := map len words in
    let avg_letters :=
      if truthy letters then VFloat (truediv (sum letters) (len letters))
      else VInt 0 in
    let confidence := 1.0%float in
    let confidence := if len sentences <? 2 then 0.5%float else confidence in
    let confidence := if len words <? 5 then 0.3%float else confidence in
    [ (u "Средняя длина предложения (avg_sentence_length)", round_value avg_sent_len 2);
      (u "Средняя длина слова (в слогах) (avg_word_syllables)", round_value avg_syllables 2);
      (u "Средняя длина слова (в буквах) (аvg_word_letters)", round_value avg_letters 2);
      (u "sentence_count", VInt (len sentences));
      (u "word_count", VInt (len words));
      (u "char_count", VInt (len text));
      (u "confidence_hint", VFloat (py_round confidence 2)) ].

End Analyzer.
End TextComplexityMetrics.

Module ReadabilityIndexCalculator.
Import Py.

(** [x ** 0.5] is the C library's [pow]; the calculator takes it from the
    platform. *)
Class Libm := { pow : float -> float -> float }.

(** A platform whose [pow(x, 0.5)] is the correctly rounded square root. *)
Definition libm_sqrt : Libm :=
  {| pow := fun x y => if (y =? 0.5)%float then sqrt x else nan |}.

Section Analyzer.
Context {U : UCD} {L : Libm}.

Definition terminator (c : codepoint) : bool := char_in c (u ".!?").

Definition _split_sentences (text : str) : list str :=
  map strip
    (List.filter (fun s => truthy (strip s))
       (split (RPlus (RSet terminator)) text)).

Definition cyr_lower (c : codepoint) : bool :=
  ((1072 <=? c) && (c <=? 1103) || (c =? 1105))%N.

Definition word_re : regex :=
  RSeq RWordB
    (RSeq (RPlus (RSet cyr_lower))
       (RSeq (RStar (RSeq (RChr 45%N) (RPlus (RSet cyr_lower)))) RWordB)).

Definition _extract_words (text : str) : list str :=
  findall word_re (lower text).

Definition vowels : str := u "аеёиоуыэюя".

Definition _count_syllables_ru (word : str) : Z :=
  Z.max 1 (count (fun ch => char_in ch vowels) word).

Definition _interpret_flesch (score : float) : str :=
  if (90 <=? score)%float then u "очень легко (1–3 кл.)"
  else if (80 <=? score)%float then u "легко (4–5 кл.)"
  else if (70 <=? score)%float then u "довольно легко (6–7 кл.)"
  else if (60 <=? score)%float then u "средне (8–9 кл.)"
  else if (50 <=? score)%float then u "довольно сложно (10–11 кл.)"
  else if (30 <=? score)%float then u "сложно (студенты)"
  else u "очень сложно (академики)".

Definition _empty_result : dict :=
  [ (u "flesch_reading_ease", VFloat 0.0);
    (u "smog_grade", VFloat 0.0);
    (u "simple_level", VFloat 0.0);
    (u "school_grade", VFloat 0.0);
    (u "avg_sentence_words", VFloat 0.0);
    (u "avg_word_syllables", VFloat 0.0);
    (u "polysyllabic_words_ge3", VInt 0);
    (u "polysyllabic_words_ge4", VInt 0);
    (u "long_sentences_gt15", VInt 0);
    (u "long_words_ge7", VInt 0);
    (u "flesch_level", VStr (u "пусто"));
    (u "is_child_friendly", VBool false);
    (u "confidence_hint", VFloat 0.0) ].

(** The four indices, before the result is assembled. *)
Definition flesch_of (n_sentences n_words n_syllables : Z) : float :=
  let asw := truediv n_syllables n_words in
  let flesch :=
    (206.835 - 1.3 * asw - 60.1 * truediv n_sentences n_words)%float in
  py_max 0.0 (py_min 100.0 flesch).

Definition smog_of (n_sentences polysyllables : Z) : float :=
  if 10 <=? n_sentences then
    (1.043 * pow (30.0 * of_int polysyllables / of_int n_sentences) 0.5
     + 3.1291)%float
  else
    (1.0 + 0.1 * of_int polysyllables)%float.

Definition simple_level_of (long_sentences polysyllables_4 long_words : Z)
    : float :=
  let simple_score :=
    (0.5 * of_int long_sentences + 1.0 * of_int polysyllables_4
     + 0.2 * of_int long_words)%float in
  py_min 5.0 (py_max 1.0 (1.0 + simple_score / 5.0)%float).

Definition school_level_of (n_sentences n_words n_syllables : Z) : float :=
  let asl := truediv n_words n_sentences in
  let asw := truediv n_syllables n_words in
  let school_level := (0.39 * asl + 11.8 * asw - 15.59)%float in
  py_max 1.0 (py_min 12.0 school_level).

Definition compute (text : str) : dict :=
  if negb (truthy (strip text)) then _empty_result
  else
    let sentences := _split_sentences text in
    let words := _extract_words text in
    let n_sentences := len sentences in
    let n_words := len words in
    if (n_words =? 0) || (n_sentences =? 0) then _empty_result
    else
      let syllables := map _count_syllables_ru words in
      let n_syllables := sum syllables in
      let polysyllables := count (fun s => 3 <=? s) syllables in
      let asl := truediv n_words n_sentences in
      let asw := truediv n_syllables n_words in
      let flesch := flesch_of n_sentences n_words n_syllables in
      let smog := smog_of n_sentences polysyllables in
      let long_sentences :=
        count (fun s => 15 <? len (_extract_words s)) sentences in
      let long_words := count (fun w => 7 <=? len w) words in
      let polysyllables_4 := count (fun s => 4 <=? s) syllables in
      let simple_level :=
        simple_level_of long_sentences polysyllables_4 long_words in
      let school_level := school_level_of n_sentences n_words n_syllables in
      let flesch_level := _interpret_flesch flesch in
      let smog_grade := py_round smog 1 in
      [ (u "flesch_reading_ease", VFloat (py_round flesch 1));
        (u "smog_grade", VFloat (py_round smog_grade 1));
        (u "simple_level", VFloat (py_round simple_level 1));
        (u "school_grade", VFloat (py_round school_level 1));
        (u "avg_sentence_words", VFloat (py_round asl 2));
        (u "avg_word_syllables", VFloat (py_round asw 2));
        (u "polysyllabic_words_ge3", VInt polysyllables);
        (u "polysyllabic_words_ge4", VInt polysyllables_4);
        (u "long_sentences_gt15", VInt long_sentences);
        (u "long_words_ge7", VInt long_words);
        (u "flesch_level", VStr flesch_level);
        (u "is_child_friendly",
         VBool ((70.0 <=? flesch)%float && (simple_level <=? 2.5)%float));
        (u "confidence_hint",
         VFloat (if 20 <=? n_words then 1.0%float else 0.6%float)) ].

End Analyzer.

End ReadabilityIndexCalculator.

End Readability.

(* ===================================================================== *)
(** * core/analyze/morpho_metrics.py                                      *)
(* ===================================================================== *)

Module MorphoMetrics.
Import Py.

(** ** The morphological analyzer ([pymorphy2.MorphAnalyzer])

    A parse carries a tag and a normal form; [tag.POS] and [tag.aspect] are a
    grammeme or [None]. *)
Record Tag := { POS : option str; aspect : option str }.
Record Parse := { tag : Tag; normal_form : str }.

(** The exceptions that can leave the class: whatever [morph.parse] raises,
    the TypeError of ["perf" in None], and the IndexError of [[0]] on an
    empty list. *)
Inductive exn :=
| MorphError (e : str)
| TypeError
| IndexError.

Inductive result (A : Type) :=
| Ok (a : A)
| Raise (e : exn).
Arguments Ok {A} a.
Arguments Raise {A} e.

Definition bind {A B} (m : result A) (k : A -> result B) : result B :=
  match m with
  | Ok a => k a
  | Raise e => Raise e
  end.

(** [morph.parse(word)]: the candidate parses, most probable first. The
    analyzer is deterministic: a function of the word. *)
Class MorphAnalyzer := { parse : str -> result (list Parse) }.

(** [self._cache]: word to POS. *)
Abbreviation cache := (gmap str str).

(** A method of the instance: it reads and writes [self._cache] and returns
    or raises. The cache it leaves is the instance's cache afterwards, also
    when it raises. *)
Definition M (A : Type) : Type := cache -> result A * cache.

Definition ret {A} (a : A) : M A := fun c => (Ok a, c).

Definition bindM {A B} (m : M A) (k : A -> M B) : M B :=
  fun c =>
    match m c with
    | (Ok a, c') => k a c'
    | (Raise e, c') => (Raise e, c')
    end.

(** A call that does not touch the cache. *)
Definition lift {A} (r : result A) : M A := fun c => (r, c).

Notation "'do' x <- m ;; k" := (bindM m (fun x => k))
  (at level 10, x name, m at level 99, k at level 200).
Notation "'try' x <- m ;; k" := (bind m (fun x => k))
  (at level 10, x name, m at level 99, k at level 200).

(** [xs[0]] *)
Definition item0 {A} (xs : list A) : result A :=
  match xs with
  | x :: _ => Ok x
  | [] => Raise IndexError
  end.

Section Instance.
Context {U : UCD} {morph : MorphAnalyzer}.

(** [self._cache_size], fixed by [__init__] (100_000 by default). *)
Variable _cache_size : Z.

(** [self._cache] after [__init__]. *)
Definition init_cache : cache := ∅.

(** [x or "UNKNOWN"] *)
Definition or_unknown (x : option str) : str :=
  match x with
  | Some (c :: pos) => c :: pos
  | _ => u "UNKNOWN"
  end.

Definition _get_pos (word : str) : M str := fun _cache =>
  if negb (truthy word) then (Ok (u "UNKNOWN"), _cache)
  else
    match _cache !! word with
    | Some pos => (Ok pos, _cache)
    | None =>
      match parse word with
      | Raise e => (Raise e, _cache)
      | Ok parsed =>
        let pos :=
          match parsed with
          | [] => u "UNKNOWN"
          | p :: _ => or_unknown (POS (tag p))
          end in
        let _cache :=
          if Z.of_nat (size _cache) <? _cache_size
          then <[word := pos]> _cache
          else _cache in
        (Ok pos, _cache)
      end
    end.

(** The set [[а-яё]]. *)
Definition cyr_lower (c : codepoint) : bool :=
  ((1072 <=? c) && (c <=? 1103) || (c =? 1105))%N.

(** [re.findall(r'\b[а-яё]+\b', text.lower())] *)
Definition _extract_words (text : str) : list str :=
  findall (RSeq RWordB (RSeq (RPlus (RSet cyr_lower)) RWordB)) (lower text).

(** [[self._get_pos(w) for w in words]] *)
Fixpoint get_pos_all (words : list str) : M (list str) :=
  match words with
  | [] => ret []
  | w :: words' =>
      do pos <- _get_pos w;;
      do rest <- get_pos_all words';;
      ret (pos :: rest)
  end.

(** [tag.POS in ("VERB", "INFN")] *)
Definition is_verb_or_infn (pos : option str) : bool :=
  match pos with
  | Some p => str_eqb p (u "VERB") || str_eqb p (u "INFN")
  | None => false
  end.

(** ["perf" in tag.aspect] *)
Definition perf_in (a : option str) : result bool :=
  match a with
  | Some a => Ok (contains a (u "perf"))
  | None => Raise TypeError
  end.

(** The loop of [_compute_perfective_verb_ratio], with its two counters. *)
Fixpoint perfective_loop (words : list str) (perfective_count verb_count : Z)
    : result (Z * Z) :=
  match words with
  | [] => Ok (perfective_count, verb_count)
  | w :: words' =>
      try parses <- parse w;;
      match parses with
      | [] => perfective_loop words' perfective_count verb_count
      | p :: _ =>
          if is_verb_or_infn (POS (tag p)) then
            let verb_count := verb_count + 1 in
            try perf <- perf_in (aspect (tag p));;
            if perf
            then perfective_loop words' (perfective_count + 1) verb_count
            else perfective_loop words' perfective_count verb_count
          else perfective_loop words' perfective_count verb_count
      end
  end.

Definition _compute_perfective_verb_ratio (words : list str) : result float :=
  try counts <- perfective_loop words 0 0;;
  let '(perfective_count, verb_count) := counts in
  Ok (if verb_count =? 0 then 0.0%float
      else py_round (truediv perfective_count verb_count) 3).

Definition suffixes : list str :=
  [u "очк"; u "еньк"; u "оньк"; u "еньк"; u "ушк"; u "ышк"; u "ичк"; u "ичк"].

(** [self.morph.parse(w)[0].normal_form if self.morph.parse(w) else w] *)
Definition norm_or_word (w : str) : result str :=
  try cond <- parse w;;
  if truthy cond then
    try parses <- parse w;;
    try p <- item0 parses;;
    Ok (normal_form p)
  else Ok w.

Fixpoint _count_diminutives_from (words : list str) (count : Z) : result Z :=
  match words with
  | [] => Ok count
  | w :: words' =>
      try norm <- norm_or_word w;;
      if existsb (fun s => endswith norm s) suffixes
      then _count_diminutives_from words' (count + 1)
      else _count_diminutives_from words' count
  end.

Definition _count_diminutives (words : list str) : result Z :=
  _count_diminutives_from words 0.

(** [«[^»]*»] and, under [re.MULTILINE], [^\s*—]. *)
Definition quoted_re : regex :=
  RSeq (RChr 171%N) (RSeq (RStar (RSet (fun c => negb (c =? 187)%N)))
                          (RChr 187%N)).
Definition dash_re : regex :=
  RSeq RBol (RSeq (RStar (RSet isspace)) (RChr 8212%N)).

Definition _count_dialogue_markers (text : str) : Z :=
  let count := 0 in
  let count := count + len (findall quoted_re text) in
  let count := count + len (findall dash_re text) in
  count.

(** [{self.morph.parse(w)[0].normal_form for w in words
      if self.morph.parse(w)}], as the list of its elements. *)
Fixpoint lemmas (words : list str) : result (list str) :=
  match words with
  | [] => Ok []
  | w :: words' =>
      try cond <- parse w;;
      if truthy cond then
        try parses <- parse w;;
        try p <- item0 parses;;
        try rest <- lemmas words';;
        Ok (normal_form p :: rest)
      else lemmas words'
  end.

Definition unique_lemmas (words : list str) : result Z :=
  try ls <- lemmas words;;
  Ok (Z.of_nat (size (list_to_set ls : gset str))).

Definition _empty_result : dict :=
  map (fun k => (k, VInt 0))
    [ u "nouns"; u "verbs"; u "adjectives"; u "pronouns"; u "adverbs";
      u "prepositions"; u "conjunctions"; u "particles"; u "interjections";
      u "noun_ratio"; u "verb_ratio"; u "adj_ratio";
      u "verb_perfective_ratio"; u "diminutive_noun_count";
      u "dialogue_markers"; u "total_words"; u "unique_lemmas" ].

(** [round(n / total, 3) if total else 0.0] *)
Definition ratio (n total : Z) : float :=
  if total =? 0 then 0.0%float else py_round (truediv n total) 3.

Definition compute (text : str) : M dict :=
  let words := _extract_words text in
  if negb (truthy words) then ret _empty_result
  else
    do pos_list <- get_pos_all words;;
    let pos_counter := counter_get (Counter pos_list) in
    let noun_like := pos_counter (u "NOUN") + pos_counter (u "NPRO") in
    let verb_like :=
      pos_counter (u "VERB") + pos_counter (u "INFN")
      + pos_counter (u "GRND") in
    let adj_like :=
      pos_counter (u "ADJF") + pos_counter (u "PRTF")
      + pos_counter (u "NUMR") in
    let adv_like := pos_counter (u "ADVB") in
    let pronouns :=
      pos_counter (u "NPRO") + pos_counter (u "ADJPRO")
      + pos_counter (u "PRTFPRO") in
    let total := len words in
    do verb_perfective_ratio <- lift (_compute_perfective_verb_ratio words);;
    do diminutive_noun_count <- lift (_count_diminutives words);;
    let dialogue_markers := _count_dialogue_markers text in
    do n_lemmas <- lift (unique_lemmas words);;
    ret [ (u "nouns", VInt (pos_counter (u "NOUN")));
          (u "verbs", VInt (pos_counter (u "VERB")));
          (u "adjectives", VInt (pos_counter (u "ADJF")));
          (u "pronouns", VInt pronouns);
          (u "adverbs", VInt (pos_counter (u "ADVB")));
          (u "prepositions", VInt (pos_counter (u "PREP")));
          (u "conjunctions", VInt (pos_counter (u "CONJ")));
          (u "particles", VInt (pos_counter (u "PRCL")));
          (u "interjections", VInt (pos_counter (u "INTJ")));
          (u "noun_ratio", VFloat (ratio (pos_counter (u "NOUN")) total));
          (u "verb_ratio", VFloat (ratio (pos_counter (u "VERB")) total));
          (u "adj_ratio", VFloat (ratio (pos_counter (u "ADJF")) total));
          (u "verb_perfective_ratio", VFloat verb_perfective_ratio);
          (u "diminutive_noun_count", VInt diminutive_noun_count);
          (u "dialogue_markers", VInt dialogue_markers);
          (u "total_words", VInt total);
          (u "unique_lemmas", VInt n_lemmas) ].

(** ** The life of an instance

    The cache is private: it changes only through [_get_pos], called
    directly or by [compute]. *)
Inductive call :=
| CallGetPos (word : str)
| CallCompute (text : str).

Definition exec (c : call) (_cache : cache) : cache :=
  match c with
  | CallGetPos word => snd (_get_pos word _cache)
  | CallCompute text => snd (compute text _cache)
  end.

(** The cache after a sequence of calls. *)
Definition run (calls : list call) (_cache : cache) : cache :=
  fold_left (fun c call => exec call c) calls _cache.

End Instance.

End MorphoMetrics.

(* ===================================================================== *)
(** * Notions used to state the properties                                *)
(* ===================================================================== *)

Module Props.
Import Py.

(** [sum(distribution.values())] *)
Definition values_sum (d : gmap Z Z) : Z :=
  map_fold (fun _ v acc => v + acc) 0 d.

(** The sum of the entries whose key satisfies [p], and one step of the
    grouping loop of the descriptive analyzer. *)
Definition wsum (p : Z -> bool) (d : gmap Z Z) : Z :=
  map_fold (fun k v acc => if p k then v + acc else acc) 0 d.

Definition bump (d : gmap Z Z) (sc : Z) : gmap Z Z :=
  <[sc := default 0 (d !! sc) + 1]> d.

(** Comparison of two floats, as a proposition. *)
Definition fle (a b : float) : Prop := (a <=? b)%float = true.

(** The exact value of a finite double, as a multiple of 2^-1074 (the
    spacing of the subnormals, so the multiple is an integer). *)
Definition sval (f : spec_float) : Z :=
  match f with
  | S754_finite s m e => cond_Zopp s (Zpos m * 2 ^ (e + 1074))
  | _ => 0
  end.

(** Zero or a positive finite double. *)
Definition nonneg_fin (f : spec_float) : bool :=
  match f with
  | S754_zero _ => true
  | S754_finite s _ _ => negb s
  | _ => false
  end.

(** [lo <= round(n / 10, 1) <= hi] for every integer [n] of
    [10*lo .. 10*hi]: a finite check. *)
Definition tenths_within (lo hi : Z) : bool :=
  forallb (fun n => let r := decimal_to_float false n 10 in
                    ((of_int lo <=? r) && (r <=? of_int hi))%float)
          (seqZ (10 * lo) (10 * (hi - lo) + 1))
  && (sval (Prim2SF (of_int lo)) =? lo * 2 ^ 1074)
  && (sval (Prim2SF (of_int hi)) =? hi * 2 ^ 1074)
  && nonneg_fin (Prim2SF (of_int lo))
  && nonneg_fin (Prim2SF (of_int hi))
  && (0 <=? lo).

Section Morpho.
Import MorphoMetrics.
Context {morph : MorphAnalyzer}.

(** The tag of the top candidate, [UNKNOWN] without candidates. *)
Definition top_pos (parsed : list Parse) : str :=
  match parsed with
  | [] => u "UNKNOWN"
  | p :: _ => or_unknown (POS (tag p))
  end.

(** What [_get_pos] answers when it has to ask the analyzer. *)
Definition pos_of (word : str) : result str :=
  if negb (truthy word) then Ok (u "UNKNOWN")
  else match parse word with
       | Ok parsed => Ok (top_pos parsed)
       | Raise e => Raise e
       end.

(** The tags of a list of words, asked one after the other. *)
Fixpoint pos_all (words : list str) : result (list str) :=
  match words with
  | [] => Ok []
  | w :: words' =>
      try pos <- pos_of w;;
      try rest <- pos_all words';;
      Ok (pos :: rest)
  end.

(** Every cached entry is what the analyzer says about its word. *)
Definition cache_ok (c : gmap str str) : Prop :=
  forall w pos, c !! w = Some pos -> pos_of w = Ok pos.

(** The analyzer answers for [w], and a verb or infinitive on top carries an
    aspect. *)
Definition parse_ok (w : str) : bool :=
  match parse w with
  | Ok (p :: _) =>
      if is_verb_or_infn (POS (tag p))
      then match aspect (tag p) with Some _ => true | None => false end
      else true
  | Ok [] => true
  | Raise _ => false
  end.

(** The analyzer raises on [w]. *)
Definition parse_raises (w : str) : bool :=
  match parse w with
  | Raise _ => true
  | Ok _ => false
  end.

(** The normal forms of the top candidates; a word without candidates
    contributes nothing. *)
Definition top_lemmas (words : list str) : list str :=
  omap (fun w => match parse w with
                 | Ok (p :: _) => Some (normal_form p)
                 | _ => None
                 end) words.

(** The number of words the analyzer tags [pos]. *)
Definition tagged (pos : str) (words : list str) : Z :=
  count (fun w => match pos_of w with
                  | Ok t => str_eqb t pos
                  | Raise _ => false
                  end) words.
End Morpho.

End Props.

(* ===================================================================== *)
(** * Stand-ins for the morphological analyzer                            *)
(* ===================================================================== *)

Module Stub.
Import Py MorphoMetrics.

Definition mk (pos : string) (asp : option string) (nf : string) : Parse :=
  {| tag := {| POS := Some (u pos); aspect := option_map u asp |};
     normal_form := u nf |}.

(** A three-word dictionary with the tags pymorphy2 gives these words; any
    other word has no candidates. *)
Definition parse_dict (w : str) : result (list Parse) :=
  if str_eqb w (u "он") then Ok [mk "NPRO" None "он"]
  else if str_eqb w (u "спит") then Ok [mk "VERB" (Some "impf") "спать"]
  else if str_eqb w (u "кот") then Ok [mk "NOUN" None "кот"]
  else Ok [].

Definition morph : MorphAnalyzer := {| parse := parse_dict |}.

(** The same analyzer, except that it raises on one word. *)
Definition parse_failing (w : str) : result (list Parse) :=
  if str_eqb w (u "сбой") then Raise (MorphError (u "KeyError"))
  else parse_dict w.

Definition morph_failing : MorphAnalyzer := {| parse := parse_failing |}.

(** Twelve sentences, six words of three syllables or more. *)
Definition twelve_sentences : str :=
  u "Мама мыла раму. Папа читал газету. Собака бежала домой. "
  ++ u "Кот спал. Дети играли. Солнце светило. Птицы пели. "
  ++ u "Река текла. Ветер дул. Дождь шёл. Корова пила воду. "
  ++ u "День прошёл.".

Definition cat_and_dog : str := u "Кот спит. Собака бежит быстро!".

End Stub.

(* ===================================================================== *)
(** * More of the Python fragment                                         *)
(* ===================================================================== *)

Module PyMore.
Import Py.

Section Sub.
Context {U : UCD}.

(** [re.sub(r, repl, s)] for a literal replacement and a pattern that
    matches no empty string: every non-overlapping match, leftmost first, is
    replaced by [repl]. *)
Fixpoint sub_from (fuel : nat) (r : regex) (repl : str)
    (prev : option codepoint) (s : str) : str :=
  match fuel with
  | O => s
  | S fuel =>
    match s with
    | [] => []
    | c :: s' =>
      match match_here r prev s with
      | Some (c' :: m, rest) =>
          repl ++ sub_from fuel r repl (Some (List.last m c')) rest
      | _ => c :: sub_from fuel r repl (Some c) s'
      end
    end
  end.

Definition sub (r : regex) (repl : str) (s : str) : str :=
  sub_from (S (length s)) r repl None s.
End Sub.

(** [s.split()]: the maximal runs of characters that are no whitespace. *)
Fixpoint split_ws_from (s : str) (word : str) : list str :=
  match s with
  | [] => if truthy word then [word] else []
  | c :: s' =>
      if isspace c
      then (if truthy word then word :: split_ws_from s' []
            else split_ws_from s' [])
      else split_ws_from s' (word ++ [c])
  end.

Definition split_ws (s : str) : list str := split_ws_from s [].

(** [d[key] = v]: a present key keeps its place and takes the new value, a
    new key goes to the end. *)
Fixpoint dict_set (d : dict) (key : str) (v : value) : dict :=
  match d with
  | [] => [(key, v)]
  | (k, x) :: d' =>
      if str_eqb k key then (k, v) :: d' else (k, x) :: dict_set d' key v
  end.

(** [{**d, **entries}]: the entries are stored one after the other. *)
Definition dict_update (d : dict) (entries : list (str * value)) : dict :=
  fold_left (fun acc kv => dict_set acc (fst kv) (snd kv)) entries d.

(** An int read from a dict; [None] stands for the KeyError of a missing
    key (and for a value that is no int, which the sources never store
    under the keys they read). [bool] is a subclass of [int]. *)
Definition getint (d : dict) (key : str) : option Z :=
  match dict_get d key with
  | Some (VInt z) => Some z
  | Some (VBool b) => Some (if b then 1 else 0)
  | _ => None
  end.

(** [int(b)] *)
Definition int_of_bool (b : bool) : Z := if b then 1 else 0.

End PyMore.

(* ===================================================================== *)
(** * core/data/preprocessing.py                                          *)
(* ===================================================================== *)

Module Preprocessing.
Import Py PyMore.

Section WithUCD.
Context {U : UCD}.

(** The punctuation the second pattern keeps: - . , ! ? ; : and the two
    quotation marks (code points 34 and 39). *)
Definition kept_punct (c : codepoint) : bool :=
  char_in c (u "-.,!?;:'") || (c =? 34)%N.

(** The set of the second pattern: everything but [\w], [\s] and the
    punctuation above. *)
Definition dropped (c : codepoint) : bool :=
  negb (is_word (Some c) || isspace c || kept_punct c).

(** [text] is whatever the example holds under its text field: anything
    but a [str] cleans to the empty string. *)
Definition clean_text (text : value) : str :=
  match text with
  | VStr text =>
      let text := sub (RPlus (RSet isspace)) (u " ") text in
      let text := sub (RSet dropped) (u " ") text in
      let text := strip text in
      text
  | _ => []
  end.

Definition terminator (c : codepoint) : bool := char_in c (u ".!?").

Definition compute_text_features (text : str) : dict :=
  let words := split_ws text in
  let sentences := split (RPlus (RSet terminator)) text in
  [ (u "char_count", VInt (len text));
    (u "word_count", VInt (len words));
    (u "sentence_count",
     VInt (len (List.filter (fun s => truthy (strip s)) sentences)));
    (u "avg_word_len",
     if truthy words then VFloat (truediv (sum (map len words)) (len words))
     else VInt 0);
    (u "has_quotes",
     VInt (int_of_bool (char_in 34%N text || char_in 39%N text)));
    (u "is_too_short", VInt (int_of_bool (len words <? 3)));
    (u "is_too_long", VInt (int_of_bool (512 <? len words))) ].

(** [min_words <= features["word_count"] <= max_words
     and not features["is_too_short"]]; the second operand is read only when
    the first holds. *)
Definition filter_by_quality (features : dict) (min_words max_words : Z)
    : option bool :=
  word_count ← getint features (u "word_count");
  if (min_words <=? word_count) && (word_count <=? max_words)
  then is_too_short ← getint features (u "is_too_short");
       Some (is_too_short =? 0)
  else Some false.

(** The entries [preprocess_example] adds to the example, in order. *)
Definition added_entries (cleaned : str) (features : dict)
    (confidence_hint : float) (valid : bool) : list (str * value) :=
  [(u "text_clean", VStr cleaned)]
  ++ map (fun kv => (u "feat_" ++ fst kv, snd kv)) features
  ++ [ (u "confidence_hint", VFloat confidence_hint);
       (u "is_valid_for_training", VBool valid) ].

Definition preprocess_example (example : dict) (text_field : str)
    : option dict :=
  let raw_text := default (VStr []) (dict_get example text_field) in
  let cleaned := clean_text raw_text in
  let features := compute_text_features cleaned in
  let confidence_hint := 1.0%float in
  is_too_short ← getint features (u "is_too_short");
  confidence_hint ←
    (if negb (is_too_short =? 0) then Some 0.3%float
     else is_too_long ← getint features (u "is_too_long");
          Some (if negb (is_too_long =? 0) then 0.6%float
                else confidence_hint));
  valid ← filter_by_quality features 5 512;
  Some (dict_update example
          (added_entries cleaned features confidence_hint valid)).

End WithUCD.

End Preprocessing.

(* ===================================================================== *)
(** * The second [DescriptiveTextMetrics] and [_normalize_word]           *)
(* ===================================================================== *)

(** The class [DescriptiveTextMetrics] as core/analyze/
    ReadabilityIndexCalculator.py defines it. *)
Module ReadabilityCopy.
Module DescriptiveTextMetrics.
Import Py.

Section Analyzer.
Context {U : UCD}.

Definition terminator (c : codepoint) : bool := char_in c (u ".!?").

Definition _split_sentences (text : str) : list str :=
  let sentences := split (RPlus (RSet terminator)) text in
  map strip (List.filter (fun s => truthy (strip s)) sentences).

Definition cyr_lower (c : codepoint) : bool :=
  ((1072 <=? c) && (c <=? 1103) || (c =? 1105))%N.

Definition word_re : regex :=
  RSeq RWordB
    (RSeq (RPlus (RSet cyr_lower))
       (RSeq (RStar (RSeq (RChr 45%N) (RPlus (RSet cyr_lower)))) RWordB)).

Definition _extract_words (text : str) : list str :=
  findall word_re (lower text).

Definition vowels : str := u "аеёиоуыэюя".

Definition _count_syllables_ru (word : str) : Z :=
  Z.max 1 (count (fun ch => char_in ch vowels) word).

Definition group_by_syllables (syllable_counts : list Z) : gmap Z Z :=
  fold_left (fun distribution sc =>
               <[sc := default 0 (distribution !! sc) + 1]> distribution)
            syllable_counts ∅.

Definition get0 (distribution : gmap Z Z) (k : Z) : Z :=
  default 0 (distribution !! k).

Definition sum_ge4 (distribution : gmap Z Z) : Z :=
  map_fold (fun k v acc => if 4 <=? k then v + acc else acc) 0 distribution.

Definition compute (text : str) : dict :=
  if negb (truthy (strip text)) then
    [ (u "word_forms_total", VInt 0);
      (u "unique_words", VInt 0);
      (u "sentence_count", VInt 0);
      (u "monosyllabic_words", VInt 0);
      (u "disyllabic_words", VInt 0);
      (u "trisyllabic_words", VInt 0);
      (u "polysyllabic_words", VInt 0);
      (u "word_syllable_distribution", VDict ∅) ]
  else
    let sentences := _split_sentences text in
    let all_words := _extract_words text in
    let unique_words : gset str := list_to_set all_words in
    let syllable_counts := map _count_syllables_ru all_words in
    let distribution := group_by_syllables syllable_counts in
    [ (u "word_forms_total", VInt (len all_words));
      (u "unique_words", VInt (Z.of_nat (size unique_words)));
      (u "sentence_count", VInt (len sentences));
      (u "monosyllabic_words", VInt (get0 distribution 1));
      (u "disyllabic_words", VInt (get0 distribution 2));
      (u "trisyllabic_words", VInt (get0 distribution 3));
      (u "polysyllabic_words", VInt (sum_ge4 distribution));
      (u "word_syllable_distribution", VDict distribution);
      (u "lexical_diversity",
       VFloat (if truthy all_words
               then py_round (truediv (Z.of_nat (size unique_words))
                                      (len all_words)) 3
               else 0.0%float)) ].

End Analyzer.
End DescriptiveTextMetrics.
End ReadabilityCopy.

(** [MorphoMetrics._normalize_word] (core/analyze/morpho_metrics.py). *)
Module MorphoNormalize.
Import Py PyMore.

Section WithUCD.
Context {U : UCD}.

(** [re.sub(r'[^а-яё]', '', word.lower())] *)
Definition _normalize_word (word : str) : str :=
  sub (RSet (fun c => negb (MorphoMetrics.cyr_lower c))) [] (lower word).

End WithUCD.
End MorphoNormalize.

(* ===================================================================== *)
(** * What a pattern can match                                            *)
(* ===================================================================== *)

Module Lang.
Import Py.

(** The texts a pattern consumes, with the assertions [\b] and [^] read as
    the empty text: an upper bound of what the matcher can return. *)
Inductive lang : regex -> str -> Prop :=
| lang_set p c : p c = true -> lang (RSet p) [c]
| lang_wordb : lang RWordB []
| lang_bol : lang RBol []
| lang_seq r1 r2 m1 m2 :
    lang r1 m1 -> lang r2 m2 -> lang (RSeq r1 r2) (m1 ++ m2)
| lang_star_nil r : lang (RStar r) []
| lang_star_cons r m1 m2 :
    lang r m1 -> lang (RStar r) m2 -> lang (RStar r) (m1 ++ m2).

(** A word in the sense of the extraction patterns: a letter of the set
    [p], then letters and single hyphens, each hyphen followed by a
    letter. *)
Inductive hyphenated (p : codepoint -> bool) : str -> Prop :=
| hyph_letter c : p c = true -> hyphenated p [c]
| hyph_more c w : p c = true -> hyphenated p w -> hyphenated p (c :: w)
| hyph_hyphen c w :
    p c = true -> hyphenated p w -> hyphenated p (c :: 45%N :: w).

(** No whitespace at either end. *)
Definition stripped (s : str) : Prop :=
  match s with
  | [] => True
  | c :: _ => isspace c = false /\ isspace (List.last s c) = false
  end.

End Lang.

(* ===================================================================== *)
(** * Keys and labels of the results                                      *)
(* ===================================================================== *)

Module Shapes.
Import Py.

(** The keys of the three averages in the surface analyzer's result for a
    blank text. *)
Definition surface_blank_keys : list str :=
  [ u "avg_sentence_length"; u "avg_word_syllables"; u "avg_word_letters" ].

(** The key under which core/analyze/descriptiveTextMetrics.py reports the
    number of unique words: one for a blank text, another otherwise. *)
Definition unique_words_key (nonblank : bool) : str :=
  if nonblank then u "Уникальные слова (unique_words)" else u "unique_words".

(** The entries of a result, with the key of the unique words renamed as
    core/analyze/ReadabilityIndexCalculator.py has it. *)
Definition rename_unique_words (d : dict) : dict :=
  map (fun kv => (if str_eqb (fst kv) (unique_words_key true)
                  then unique_words_key false else fst kv, snd kv)) d.

(** The seven band labels of [_interpret_flesch], easiest first. *)
Definition band_labels : list str :=
  [ u "очень легко (1–3 кл.)"; u "легко (4–5 кл.)"; u "довольно легко (6–7 кл.)"; u "средне (8–9 кл.)"; u "довольно сложно (10–11 кл.)"; u "сложно (студенты)"; u "очень сложно (академики)" ].

(** The calls that go through [compute]. *)
Definition is_compute (c : MorphoMetrics.call) : bool :=
  match c with
  | MorphoMetrics.CallCompute _ => true
  | MorphoMetrics.CallGetPos _ => false
  end.

(** The nine keys of the part-of-speech counts. *)
Definition pos_count_keys : list str :=
  [ u "nouns"; u "verbs"; u "adjectives"; u "pronouns"; u "adverbs";
    u "prepositions"; u "conjunctions"; u "particles"; u "interjections" ].

(** The keys [preprocess_example] writes. *)
Definition added_keys : list str :=
  [ u "text_clean"; u "feat_char_count"; u "feat_word_count";
    u "feat_sentence_count"; u "feat_avg_word_len"; u "feat_has_quotes";
    u "feat_is_too_short"; u "feat_is_too_long"; u "confidence_hint";
    u "is_valid_for_training" ].

(** No word has a verb or an infinitive as its top parse (a word on which
    the analyzer raises counts as one that might). *)
Definition no_verb_on_top {morph : MorphoMetrics.MorphAnalyzer}
    (words : list str) : bool :=
  forallb (fun w => match MorphoMetrics.parse w with
                    | MorphoMetrics.Ok (p :: _) =>
                        negb (MorphoMetrics.is_verb_or_infn
                                (MorphoMetrics.POS (MorphoMetrics.tag p)))
                    | MorphoMetrics.Ok [] => true
                    | MorphoMetrics.Raise _ => false
                    end) words.

End Shapes.

(* ===================================================================== *)
(** * Properties                                                          *)
(* ===================================================================== *)

Import Py Props.

(** ** Reading a result mapping *)

Lemma dict_get_here k v d key :
  str_eqb k key = true -> dict_get ((k, v) :: d) key = Some v.
Proof. intros E. simpl. now rewrite E. Qed.

Lemma dict_get_next k v d key :
  str_eqb k key = false -> dict_get ((k, v) :: d) key = dict_get d key.
Proof. intros E. simpl. now rewrite E. Qed.

(** Walks down a dict literal to the entry of a literal key. *)
Ltac dict_lookup :=
  repeat (rewrite dict_get_next by (vm_compute; reflexivity));
  rewrite dict_get_here by (vm_compute; reflexivity).

Lemma float_neq_by (p : float -> bool) (a b : float) :
  p a = true -> p b = false -> a <> b.
Proof. intros Ha Hb E. rewrite E in Ha. congruence. Qed.

Lemma some_vfloat_inj (a b : float) :
  Some (VFloat a) = Some (VFloat b) -> a = b.
Proof.
  intros E.
  exact (f_equal (fun o => match o with Some (VFloat x) => x | _ => a end) E).
Qed.

(** ** Counting *)

Lemma count_map {A B} (f : A -> B) (p : B -> bool) (l : list A) :
  count p (map f l) = count (fun a => p (f a)) l.
Proof.
  unfold count, len. f_equal.
  induction l as [|a l IH]; simpl; [reflexivity|].
  destruct (p (f a)); simpl; now rewrite IH.
Qed.

Lemma count_true {A} (l : list A) : count (fun _ => true) l = len l.
Proof.
  unfold count, len. f_equal. induction l; simpl; congruence.
Qed.

Lemma len_nonempty {A} (l : list A) : l <> [] -> (len l =? 0) = false.
Proof.
  destruct l; [congruence|]. intros _. unfold len. simpl length.
  apply Z.eqb_neq. lia.
Qed.

(** ** Binary64 facts

    The primitive comparisons are read through their specification on
    [spec_float]; [sval] gives the exact value of a finite double. *)

Lemma digits2_pos_bounds (m : positive) :
  2 ^ (Zpos (digits2_pos m) - 1) <= Zpos m < 2 ^ Zpos (digits2_pos m).
Proof.
  induction m as [m IH|m IH|]; simpl digits2_pos.
  - rewrite Pos2Z.inj_succ.
    replace (Z.succ (Zpos (digits2_pos m)) - 1)
      with (Z.succ (Zpos (digits2_pos m) - 1)) by lia.
    rewrite !Z.pow_succ_r by lia. lia.
  - rewrite Pos2Z.inj_succ.
    replace (Z.succ (Zpos (digits2_pos m)) - 1)
      with (Z.succ (Zpos (digits2_pos m) - 1)) by lia.
    rewrite !Z.pow_succ_r by lia. lia.
  - simpl. lia.
Qed.

Lemma valid_finite_bounds (s : bool) (m : positive) (e : Z) :
  valid_binary (S754_finite s m e) = true ->
  -1074 <= e /\ Zpos m < 2 ^ 53 /\ (-1074 < e -> 2 ^ 52 <= Zpos m).
Proof.
  unfold SpecFloat.valid_binary, bounded, canonical_mantissa, fexp.
  change (SpecFloat.emin prec emax) with (-1074). change prec with 53.
  intros H. apply andb_true_iff in H as [H _]. apply Z.eqb_eq in H.
  pose proof (digits2_pos_bounds m) as [Hlo Hhi].
  set (d := Zpos (digits2_pos m)) in *.
  assert (Hd : d <= 53) by lia.
  split; [lia|]. split.
  - apply Z.lt_le_trans with (2 ^ d); [exact Hhi|].
    apply Z.pow_le_mono_r; lia.
  - intros He. assert (d = 53) as Hd53 by lia.
    rewrite Hd53 in Hlo. exact Hlo.
Qed.

Lemma SFleb_sval (x y : spec_float) :
  valid_binary x = true -> valid_binary y = true ->
  nonneg_fin x = true -> nonneg_fin y = true ->
  SFleb x y = true -> sval x <= sval y.
Proof.
  intros Vx Vy Nx Ny.
  destruct x as [sx|sx| |sx mx ex], y as [sy|sy| |sy my ey];
    try discriminate Nx; try discriminate Ny; simpl in Nx, Ny;
    try (destruct sx; [discriminate Nx|]);
    try (destruct sy; [discriminate Ny|]);
    unfold SFleb; simpl; intros H; try discriminate H; try lia.
  apply valid_finite_bounds in Vx as (Hex & Hmx & _).
  apply valid_finite_bounds in Vy as (Hey & _ & Hmy).
  assert (HP : 0 < 2 ^ (ex + 1074)) by (apply Z.pow_pos_nonneg; lia).
  destruct (Z.compare_spec ex ey) as [->|Hlt|Hgt]; [| |discriminate H].
  - apply Z.mul_le_mono_nonneg_r; [lia|].
    change (Pos.compare_cont Eq mx my) with (Pos.compare mx my) in H.
    destruct (Pos.compare_spec mx my) as [->|?|?];
      [lia|lia|discriminate H].
  - replace (ey + 1074) with ((ey - ex) + (ex + 1074)) by lia.
    rewrite (Z.pow_add_r 2 (ey - ex) (ex + 1074)) by lia.
    assert (HQ : 2 ^ 1 <= 2 ^ (ey - ex)) by (apply Z.pow_le_mono_r; lia).
    change (2 ^ 1) with 2 in HQ.
    specialize (Hmy ltac:(lia)).
    change (2 ^ 53) with 9007199254740992 in Hmx.
    change (2 ^ 52) with 4503599627370496 in Hmy.
    apply Z.le_trans with (9007199254740992 * 2 ^ (ex + 1074)).
    + apply Z.mul_le_mono_nonneg_r; lia.
    + rewrite Z.mul_assoc. apply Z.mul_le_mono_nonneg_r; [lia|]. nia.
Qed.

Lemma ltb_leb (a b : float) :
  (a <? b)%float = true -> (a <=? b)%float = true.
Proof.
  rewrite ltb_spec, leb_spec. unfold SFltb, SFleb.
  destruct (SFcompare (Prim2SF a) (Prim2SF b)) as [[]|]; congruence.
Qed.

(** [max(lo, min(hi, x))] lies between [lo] and [hi], whatever [x] is. *)
Lemma clamp_max_min (lo hi x : float) :
  fle lo lo -> fle hi hi -> fle lo hi ->
  fle lo (py_max lo (py_min hi x)) /\ fle (py_max lo (py_min hi x)) hi.
Proof.
  unfold fle, py_max, py_min. intros Hll Hhh Hlh.
  destruct (x <? hi)%float eqn:E1.
  - destruct (lo <? x)%float eqn:E2; auto using ltb_leb.
  - destruct (lo <? hi)%float eqn:E2; auto.
Qed.

(** [min(hi, max(lo, x))] lies between [lo] and [hi], whatever [x] is. *)
Lemma clamp_min_max (lo hi x : float) :
  fle lo lo -> fle hi hi -> fle lo hi ->
  fle lo (py_min hi (py_max lo x)) /\ fle (py_min hi (py_max lo x)) hi.
Proof.
  unfold fle, py_max, py_min. intros Hll Hhh Hlh.
  destruct (lo <? x)%float eqn:E1.
  - destruct (x <? hi)%float eqn:E2; auto using ltb_leb.
  - destruct (lo <? hi)%float eqn:E2; auto.
Qed.

Lemma div_half_even_between (x D a b : Z) :
  0 < D -> a * D <= x <= b * D -> a <= div_half_even x D <= b.
Proof.
  intros HD [Ha Hb]. unfold div_half_even.
  pose proof (Z.div_mod x D ltac:(lia)) as Hx.
  pose proof (Z.mod_pos_bound x D HD) as Hr.
  set (q := x / D) in *. set (r := x mod D) in *.
  assert (a <= q) by nia. assert (q <= b) by nia.
  destruct (Z.compare_spec (2 * r) D) as [E|E|E].
  - destruct (Z.even q); [lia|]. assert (q < b) by nia. lia.
  - lia.
  - assert (q < b) by nia. lia.
Qed.

(** Rounding to one decimal keeps a value between two integer bounds
    between them. *)
Lemma py_round1_within (lo hi : Z) (y : float) :
  tenths_within lo hi = true ->
  fle (of_int lo) y -> fle y (of_int hi) ->
  fle (of_int lo) (py_round y 1) /\ fle (py_round y 1) (of_int hi).
Proof.
  unfold tenths_within. rewrite !andb_true_iff.
  intros (((((Hall & Hlo) & Hhi) & Nlo) & Nhi) & H0) Hly Hyh.
  apply Z.eqb_eq in Hlo, Hhi. apply Z.leb_le in H0.
  pose proof Hly as Sly. pose proof Hyh as Syh.
  unfold fle in Sly, Syh. rewrite leb_spec in Sly, Syh.
  pose proof (Prim2SF_valid y) as Vy.
  pose proof (Prim2SF_valid (of_int lo)) as Vlo.
  pose proof (Prim2SF_valid (of_int hi)) as Vhi.
  unfold py_round.
  destruct (Prim2SF y) as [sy|sy| |sy m e] eqn:Ey; auto.
  assert (sy = false) as ->.
  { destruct sy; [|reflexivity]. exfalso.
    destruct (Prim2SF (of_int lo)) as [s|s| |[] ? ?];
      try discriminate Nlo; discriminate Sly. }
  pose proof (SFleb_sval _ _ Vlo Vy Nlo eq_refl Sly) as Blo.
  pose proof (SFleb_sval _ _ Vy Vhi eq_refl Nhi Syh) as Bhi.
  rewrite Hlo in Blo. rewrite Hhi in Bhi. simpl sval in Blo, Bhi.
  apply valid_finite_bounds in Vy as (He & _ & _).
  set (n := if 0 <=? e then Zpos m * 2 ^ e * 10 ^ 1
            else div_half_even (Zpos m * 10 ^ 1) (2 ^ (- e))).
  assert (Hn : 10 * lo <= n <= 10 * hi).
  { unfold n. change (10 ^ 1) with 10.
    destruct (Z.leb_spec 0 e) as [Hpos|Hneg].
    - rewrite Z.pow_add_r in Blo, Bhi by lia.
      assert (0 < 2 ^ 1074) by (apply Z.pow_pos_nonneg; lia).
      nia.
    - assert (HD : 0 < 2 ^ (- e)) by (apply Z.pow_pos_nonneg; lia).
      assert (HP : 0 < 2 ^ (e + 1074)) by (apply Z.pow_pos_nonneg; lia).
      assert (HS : 2 ^ 1074 = 2 ^ (e + 1074) * 2 ^ (- e)).
      { rewrite <- Z.pow_add_r by lia. f_equal. lia. }
      rewrite HS in Blo, Bhi.
      apply div_half_even_between; [exact HD|]. nia. }
  rewrite forallb_forall in Hall.
  specialize (Hall n). cbv zeta in Hall.
  rewrite andb_true_iff in Hall. apply Hall.
  apply list_elem_of_In, elem_of_seqZ. lia.
Qed.

(** ** The surface analyzer *)

Section Surface.
Context {U : UCD}.

(** C10. The two definitions of the class [TextComplexityMetrics], the one of
    textComplexityMetrics.py and the one of ReadabilityIndexCalculator.py,
    compute the same result on every text: the same keys, in the same order,
    with the same values. *)
Theorem duplicate_surface_analyzers_agree (text : str) :
  TextComplexityMetrics.compute text
    = Readability.TextComplexityMetrics.compute text
  /\ keys (TextComplexityMetrics.compute text)
    = keys (Readability.TextComplexityMetrics.compute text).
Proof. split; reflexivity. Qed.

(** The confidence after the first check (the sentence count) and after the
    second (the word count), as [compute] evaluates them in turn. *)
Lemma surface_nonblank_fields (text : str) :
  truthy (strip text) = true ->
  let sentences := TextComplexityMetrics._split_sentences text in
  let words := flat_map TextComplexityMetrics._split_words sentences in
  let confidence := 1.0%float in
  let confidence := if len sentences <? 2 then 0.5%float else confidence in
  let confidence := if len words <? 5 then 0.3%float else confidence in
  dict_get (TextComplexityMetrics.compute text) (u "sentence_count")
    = Some (VInt (len sentences))
  /\ dict_get (TextComplexityMetrics.compute text) (u "word_count")
    = Some (VInt (len words))
  /\ dict_get (TextComplexityMetrics.compute text) (u "confidence_hint")
    = Some (VFloat (py_round confidence 2)).
Proof.
  intros Hnb. unfold TextComplexityMetrics.compute. rewrite Hnb. cbv zeta.
  change (negb true) with false. cbv iota.
  repeat split; dict_lookup; reflexivity.
Qed.

(** C5. On a non-blank text the confidence hint is the outcome of two
    checks made one after the other: it starts at 1.0, the first check sets
    0.5 when there are fewer than 2 sentences, and the second, which does not
    depend on the first, sets 0.3 when there are fewer than 5 words; so 0.3
    is reported whenever the word count is below 5. *)
Theorem confidence_hint_two_checks (text : str) :
  truthy (strip text) = true ->
  let n_sentences := len (TextComplexityMetrics._split_sentences text) in
  let n_words :=
    len (flat_map TextComplexityMetrics._split_words
           (TextComplexityMetrics._split_sentences text)) in
  let after_first := if n_sentences <? 2 then 0.5%float else 1.0%float in
  let after_second := if n_words <? 5 then 0.3%float else after_first in
  dict_get (TextComplexityMetrics.compute text) (u "sentence_count")
    = Some (VInt n_sentences)
  /\ dict_get (TextComplexityMetrics.compute text) (u "word_count")
    = Some (VInt n_words)
  /\ dict_get (TextComplexityMetrics.compute text) (u "confidence_hint")
    = Some (VFloat after_second)
  /\ (n_words < 5 ->
      dict_get (TextComplexityMetrics.compute text) (u "confidence_hint")
      = Some (VFloat 0.3%float)).
Proof.
  intros Hnb n_sentences n_words after_first after_second.
  destruct (surface_nonblank_fields text Hnb) as (Hs & Hw & Hc).
  assert (Hround : py_round after_second 2 = after_second).
  { unfold after_second, after_first.
    destruct (n_words <? 5), (n_sentences <? 2); vm_compute; reflexivity. }
  fold n_sentences n_words in Hs, Hw, Hc.
  repeat split; try assumption.
  - rewrite Hc. f_equal. f_equal. exact Hround.
  - intros Hlt. rewrite Hc. f_equal. f_equal. fold after_first.
    fold after_second. rewrite Hround. unfold after_second.
    apply Z.ltb_lt in Hlt. now rewrite Hlt.
Qed.

End Surface.

(** A text of three words in one sentence. *)
Lemma confidence_hint_two_checks_witness :
  truthy (strip (u "Кот спит дома.")) = true
  /\ dict_get (@TextComplexityMetrics.compute ucd_basic (u "Кот спит дома."))
       (u "confidence_hint") = Some (VFloat 0.3%float).
Proof.
  split; [reflexivity|].
  refine (proj2 (proj2 (proj2
    (@confidence_hint_two_checks ucd_basic (u "Кот спит дома.") _))) _).
  - reflexivity.
  - vm_compute. reflexivity.
Defined.

(** C6 as stated (two sentences, five words and a hint of 0.3) does not
    hold: the hint of this text is not 0.3. *)
Lemma cat_and_dog_hint_is_not_0_3 :
  ~ (dict_get (@TextComplexityMetrics.compute ucd_basic Stub.cat_and_dog)
       (u "sentence_count") = Some (VInt 2)
     /\ dict_get (@TextComplexityMetrics.compute ucd_basic Stub.cat_and_dog)
       (u "word_count") = Some (VInt 5)
     /\ dict_get (@TextComplexityMetrics.compute ucd_basic Stub.cat_and_dog)
       (u "confidence_hint") = Some (VFloat 0.3%float)).
Proof.
  intros (_ & _ & H). vm_compute in H.
  apply some_vfloat_inj in H. revert H.
  apply (float_neq_by (fun x => (0.5 <? x)%float)); reflexivity.
Qed.

(** C6, amended. For the text "Кот спит. Собака бежит быстро!" the surface
    analyzer reports 2 sentences and 5 words (Кот, спит, Собака, бежит,
    быстро, in the case of the text), and a confidence hint of 1.0: five
    words are not fewer than five. *)
Theorem cat_and_dog_surface :
  @TextComplexityMetrics._split_sentences ucd_basic Stub.cat_and_dog
    = [u "Кот спит"; u "Собака бежит быстро"]
  /\ flat_map (@TextComplexityMetrics._split_words ucd_basic)
       (@TextComplexityMetrics._split_sentences ucd_basic Stub.cat_and_dog)
    = [u "Кот"; u "спит"; u "Собака"; u "бежит"; u "быстро"]
  /\ dict_get (@TextComplexityMetrics.compute ucd_basic Stub.cat_and_dog)
       (u "sentence_count") = Some (VInt 2)
  /\ dict_get (@TextComplexityMetrics.compute ucd_basic Stub.cat_and_dog)
       (u "word_count") = Some (VInt 5)
  /\ dict_get (@TextComplexityMetrics.compute ucd_basic Stub.cat_and_dog)
       (u "confidence_hint") = Some (VFloat 1.0%float).
Proof. repeat split; vm_compute; reflexivity. Qed.

(** ** The descriptive analyzer *)

Section Descriptive.
Context {U : UCD}.
Import DescriptiveTextMetrics.

Lemma wsum_comm (p : Z -> bool) (j1 j2 z1 z2 y : Z) :
  (if p j1 then z1 + (if p j2 then z2 + y else y)
   else (if p j2 then z2 + y else y))
  = (if p j2 then z2 + (if p j1 then z1 + y else y)
     else (if p j1 then z1 + y else y)).
Proof. destruct (p j1), (p j2); lia. Qed.

Lemma wsum_bump (p : Z -> bool) (d : gmap Z Z) (sc : Z) :
  wsum p (bump d sc) = wsum p d + (if p sc then 1 else 0).
Proof.
  unfold wsum, bump. destruct (d !! sc) as [v|] eqn:E; simpl.
  - rewrite <- insert_delete_eq.
    rewrite map_fold_insert_L.
    + rewrite (map_fold_delete_L _ 0 sc v d); [| |exact E].
      * destruct (p sc); lia.
      * intros. apply wsum_comm.
    + intros. apply wsum_comm.
    + apply lookup_delete_eq.
  - rewrite map_fold_insert_L; [| |exact E].
    + destruct (p sc); lia.
    + intros. apply wsum_comm.
Qed.

Lemma wsum_fold (p : Z -> bool) (l : list Z) (d : gmap Z Z) :
  wsum p (fold_left bump l d) = wsum p d + count p l.
Proof.
  revert d. induction l as [|sc l IH]; intros d; simpl.
  - unfold count, len. simpl. lia.
  - rewrite IH, wsum_bump. unfold count, len. simpl.
    destruct (p sc); simpl length; lia.
Qed.

Lemma get0_bump (d : gmap Z Z) (sc k : Z) :
  get0 (bump d sc) k = get0 d k + (if sc =? k then 1 else 0).
Proof.
  unfold get0, bump. destruct (Z.eqb_spec sc k) as [->|Hne].
  - now rewrite lookup_insert_eq.
  - rewrite lookup_insert_ne by exact Hne. lia.
Qed.

Lemma get0_fold (l : list Z) (d : gmap Z Z) (k : Z) :
  get0 (fold_left bump l d) k = get0 d k + count (fun sc => sc =? k) l.
Proof.
  revert d. induction l as [|sc l IH]; intros d; simpl.
  - unfold count, len. simpl. lia.
  - rewrite IH, get0_bump. unfold count, len. simpl.
    destruct (sc =? k); simpl length; lia.
Qed.

Lemma group_by_syllables_sum (l : list Z) :
  values_sum (group_by_syllables l) = len l.
Proof.
  change (wsum (fun _ => true) (fold_left bump l ∅) = len l).
  rewrite wsum_fold, count_true. unfold wsum. now rewrite map_fold_empty.
Qed.

Lemma group_by_syllables_ge4 (l : list Z) :
  sum_ge4 (group_by_syllables l) = count (fun sc => 4 <=? sc) l.
Proof.
  change (wsum (fun k => 4 <=? k) (fold_left bump l ∅)
          = count (fun sc => 4 <=? sc) l).
  rewrite wsum_fold. unfold wsum. now rewrite map_fold_empty.
Qed.

Lemma group_by_syllables_entry (l : list Z) (k : Z) :
  get0 (group_by_syllables l) k = count (fun sc => sc =? k) l.
Proof.
  change (get0 (fold_left bump l ∅) k = count (fun sc => sc =? k) l).
  rewrite get0_fold. unfold get0. now rewrite lookup_empty.
Qed.

Lemma buckets_partition (l : list Z) :
  Forall (fun n => 1 <= n) l ->
  count (fun n => n =? 1) l + count (fun n => n =? 2) l
  + count (fun n => n =? 3) l + count (fun n => 4 <=? n) l = len l.
Proof.
  unfold count, len. induction 1 as [|n l Hn _ IH]; simpl; [reflexivity|].
  destruct (Z.eqb_spec n 1), (Z.eqb_spec n 2), (Z.eqb_spec n 3),
    (Z.leb_spec 4 n); simpl length; lia.
Qed.

(** Every syllable count is at least 1, so the four reported buckets (1, 2,
    3, and 4 or more syllables) split the word forms. *)
Lemma syllable_buckets_partition (words : list str) :
  let d := group_by_syllables (map _count_syllables_ru words) in
  get0 d 1 + get0 d 2 + get0 d 3 + sum_ge4 d = len words.
Proof.
  cbv zeta. rewrite !group_by_syllables_entry, group_by_syllables_ge4.
  rewrite buckets_partition; [unfold len; now rewrite length_map|].
  apply Forall_forall. intros n Hn. apply list_elem_of_In in Hn.
  apply in_map_iff in Hn as (w & <- & _).
  unfold _count_syllables_ru. lia.
Qed.

(** C4. For every text, the values of the syllable distribution returned by
    [compute] sum to the returned [word_forms_total]. The distribution keeps
    one entry per syllable count, also above 3: its entry for [k] is the
    number of extracted words with exactly [k] syllables, and the
    [polysyllabic_words] bucket is the number of words with 4 syllables or
    more. *)
Theorem distribution_sums_to_total (text : str) :
  exists d : gmap Z Z,
    dict_get (compute text) (u "word_syllable_distribution") = Some (VDict d)
    /\ dict_get (compute text) (u "word_forms_total")
       = Some (VInt (values_sum d))
    /\ (forall k : Z,
         get0 d k =
         if truthy (strip text)
         then count (fun w => _count_syllables_ru w =? k) (_extract_words text)
         else 0)
    /\ dict_get (compute text) (u "polysyllabic_words")
       = Some (VInt (if truthy (strip text)
                     then count (fun w => 4 <=? _count_syllables_ru w)
                                (_extract_words text)
                     else 0)).
Proof.
  unfold compute. destruct (truthy (strip text)); cbv zeta;
    [change (negb true) with false | change (negb false) with true];
    cbv iota.
  - exists (group_by_syllables (map _count_syllables_ru (_extract_words text))).
    split; [dict_lookup; reflexivity|].
    split; [dict_lookup; rewrite group_by_syllables_sum;
            unfold len; now rewrite length_map|].
    split.
    + intros k. rewrite group_by_syllables_entry. apply count_map.
    + dict_lookup. rewrite group_by_syllables_ge4.
      now rewrite (count_map _count_syllables_ru (fun sc => 4 <=? sc)).
  - exists ∅.
    split; [dict_lookup; reflexivity|].
    split; [dict_lookup; reflexivity|].
    split; [intros k; reflexivity|].
    dict_lookup; reflexivity.
Qed.

End Descriptive.

(** ** The readability indices *)

Section ReadabilityIndices.
Context {U : UCD} {L : Readability.ReadabilityIndexCalculator.Libm}.
Import Readability.ReadabilityIndexCalculator.

(** Takes [compute] into its last branch: a non-blank text with a sentence
    and a word. *)
Ltac enter_compute Hnb Hs Hw :=
  unfold compute; rewrite Hnb; change (negb true) with false; cbv iota zeta;
  rewrite (len_nonempty _ Hs), (len_nonempty _ Hw);
  change (false || false) with false; cbv iota.

(** The three clamped indices stay within their bounds after rounding. *)
Lemma flesch_round_clamped (n_sentences n_words n_syllables : Z) :
  fle 0 (py_round (flesch_of n_sentences n_words n_syllables) 1)
  /\ fle (py_round (flesch_of n_sentences n_words n_syllables) 1) 100.
Proof.
  change 0%float with (of_int 0). change 100%float with (of_int 100).
  apply py_round1_within; [vm_compute; reflexivity | |];
    apply (clamp_max_min 0 100); reflexivity.
Qed.

Lemma simple_level_round_clamped (long_sentences poly4 long_words : Z) :
  fle 1 (py_round (simple_level_of long_sentences poly4 long_words) 1)
  /\ fle (py_round (simple_level_of long_sentences poly4 long_words) 1) 5.
Proof.
  change 1%float with (of_int 1). change 5%float with (of_int 5).
  apply py_round1_within; [vm_compute; reflexivity | |];
    apply (clamp_min_max 1 5); reflexivity.
Qed.

Lemma school_round_clamped (n_sentences n_words n_syllables : Z) :
  fle 1 (py_round (school_level_of n_sentences n_words n_syllables) 1)
  /\ fle (py_round (school_level_of n_sentences n_words n_syllables) 1) 12.
Proof.
  change 1%float with (of_int 1). change 12%float with (of_int 12).
  apply py_round1_within; [vm_compute; reflexivity | |];
    apply (clamp_max_min 1 12); reflexivity.
Qed.

(** C2. On a non-blank text with at least one sentence and one word, the
    reported Flesch index lies in [0, 100], the reported simple level in
    [1, 5] and the reported school grade in [1, 12], whatever the text. *)
Theorem indices_within_clamps (text : str) :
  truthy (strip text) = true ->
  _split_sentences text <> [] ->
  _extract_words text <> [] ->
  exists flesch simple_level school_grade : float,
    dict_get (compute text) (u "flesch_reading_ease") = Some (VFloat flesch)
    /\ dict_get (compute text) (u "simple_level") = Some (VFloat simple_level)
    /\ dict_get (compute text) (u "school_grade") = Some (VFloat school_grade)
    /\ fle 0 flesch /\ fle flesch 100
    /\ fle 1 simple_level /\ fle simple_level 5
    /\ fle 1 school_grade /\ fle school_grade 12.
Proof.
  intros Hnb Hs Hw. enter_compute Hnb Hs Hw.
  eexists _, _, _.
  split; [dict_lookup; reflexivity|].
  split; [dict_lookup; reflexivity|].
  split; [dict_lookup; reflexivity|].
  pose proof (flesch_round_clamped
                (len (_split_sentences text)) (len (_extract_words text))
                (sum (map _count_syllables_ru (_extract_words text))))
    as [F1 F2].
  pose proof (school_round_clamped
                (len (_split_sentences text)) (len (_extract_words text))
                (sum (map _count_syllables_ru (_extract_words text))))
    as [G1 G2].
  repeat split; try assumption; apply simple_level_round_clamped.
Qed.

(** C3. On a non-blank text with at least one sentence and one word, the
    SMOG index follows one of two formulas, chosen by the number of
    sentences alone: with 10 sentences or more it is
    1.043 * (30 * polysyllables / n_sentences) ** 0.5 + 3.1291, and below 10
    it is 1.0 + 0.1 * polysyllables, where polysyllables counts the words of
    3 syllables or more. The result reports it rounded to one decimal. *)
Theorem smog_two_branches (text : str) :
  truthy (strip text) = true ->
  _split_sentences text <> [] ->
  _extract_words text <> [] ->
  let n_sentences := len (_split_sentences text) in
  let polysyllables :=
    count (fun w => 3 <=? _count_syllables_ru w) (_extract_words text) in
  let smog :=
    if 10 <=? n_sentences
    then (1.043 * pow (30.0 * of_int polysyllables / of_int n_sentences) 0.5
          + 3.1291)%float
    else (1.0 + 0.1 * of_int polysyllables)%float in
  dict_get (compute text) (u "polysyllabic_words_ge3")
    = Some (VInt polysyllables)
  /\ dict_get (compute text) (u "smog_grade")
    = Some (VFloat (py_round (py_round smog 1) 1)).
Proof.
  intros Hnb Hs Hw n_sentences polysyllables smog.
  enter_compute Hnb Hs Hw.
  rewrite (count_map _count_syllables_ru (fun s => 3 <=? s)).
  split; dict_lookup; reflexivity.
Qed.

End ReadabilityIndices.

(** One sentence of two words. *)
Lemma indices_within_clamps_witness :
  truthy (strip (u "Кот спит.")) = true
  /\ @Readability.ReadabilityIndexCalculator._split_sentences ucd_basic
       (u "Кот спит.") <> []
  /\ @Readability.ReadabilityIndexCalculator._extract_words ucd_basic
       (u "Кот спит.") <> []
  /\ exists flesch simple_level school_grade : float,
      dict_get (@Readability.ReadabilityIndexCalculator.compute ucd_basic
                  Readability.ReadabilityIndexCalculator.libm_sqrt
                  (u "Кот спит."))
        (u "flesch_reading_ease") = Some (VFloat flesch)
      /\ dict_get (@Readability.ReadabilityIndexCalculator.compute ucd_basic
                  Readability.ReadabilityIndexCalculator.libm_sqrt
                  (u "Кот спит."))
        (u "simple_level") = Some (VFloat simple_level)
      /\ dict_get (@Readability.ReadabilityIndexCalculator.compute ucd_basic
                  Readability.ReadabilityIndexCalculator.libm_sqrt
                  (u "Кот спит."))
        (u "school_grade") = Some (VFloat school_grade)
      /\ fle 0 flesch /\ fle flesch 100
      /\ fle 1 simple_level /\ fle simple_level 5
      /\ fle 1 school_grade /\ fle school_grade 12.
Proof.
  assert (H1 : truthy (strip (u "Кот спит.")) = true) by reflexivity.
  assert (H2 : @Readability.ReadabilityIndexCalculator._split_sentences
                 ucd_basic (u "Кот спит.") <> [])
    by (vm_compute; discriminate).
  assert (H3 : @Readability.ReadabilityIndexCalculator._extract_words
                 ucd_basic (u "Кот спит.") <> [])
    by (vm_compute; discriminate).
  split; [exact H1|]. split; [exact H2|]. split; [exact H3|].
  exact (@indices_within_clamps ucd_basic
           Readability.ReadabilityIndexCalculator.libm_sqrt
           (u "Кот спит.") H1 H2 H3).
Defined.

(** Twelve sentences with six words of three syllables or more: the
    square-root formula applies, 1.043 * sqrt(15) + 3.1291, reported
    as 7.2; the linear formula would give 1.6. *)
Lemma smog_two_branches_witness :
  truthy (strip Stub.twelve_sentences) = true
  /\ len (@Readability.ReadabilityIndexCalculator._split_sentences ucd_basic
            Stub.twelve_sentences) = 12
  /\ @Readability.ReadabilityIndexCalculator._extract_words ucd_basic
       Stub.twelve_sentences <> []
  /\ dict_get (@Readability.ReadabilityIndexCalculator.compute ucd_basic
                 Readability.ReadabilityIndexCalculator.libm_sqrt
                 Stub.twelve_sentences)
       (u "polysyllabic_words_ge3") = Some (VInt 6)
  /\ dict_get (@Readability.ReadabilityIndexCalculator.compute ucd_basic
                 Readability.ReadabilityIndexCalculator.libm_sqrt
                 Stub.twelve_sentences)
       (u "smog_grade")
     = Some (VFloat (py_round (py_round
                (1.043 * sqrt (30.0 * of_int 6 / of_int 12) + 3.1291) 1) 1)).
Proof.
  assert (H1 : truthy (strip Stub.twelve_sentences) = true) by reflexivity.
  assert (H2 : @Readability.ReadabilityIndexCalculator._split_sentences
                 ucd_basic Stub.twelve_sentences <> [])
    by (vm_compute; discriminate).
  assert (H3 : @Readability.ReadabilityIndexCalculator._extract_words
                 ucd_basic Stub.twelve_sentences <> [])
    by (vm_compute; discriminate).
  split; [exact H1|]. split; [vm_compute; reflexivity|]. split; [exact H3|].
  exact (@smog_two_branches ucd_basic
           Readability.ReadabilityIndexCalculator.libm_sqrt
           Stub.twelve_sentences H1 H2 H3).
Defined.

(** ** The morphological classifier *)

Section Classifier.
Context {U : UCD} {morph : MorphoMetrics.MorphAnalyzer}.
Import MorphoMetrics.
Variable cache_size : Z.

Abbreviation get_pos := (_get_pos cache_size).

(** The four ways a lookup can go. *)
Lemma get_pos_cases (w : str) (c : gmap str str) :
  (w = [] /\ get_pos w c = (Ok (u "UNKNOWN"), c))
  \/ (exists pos, c !! w = Some pos /\ get_pos w c = (Ok pos, c))
  \/ (exists e, w <> [] /\ c !! w = None /\ parse w = Raise e
                /\ get_pos w c = (Raise e, c))
  \/ (exists parsed, w <> [] /\ c !! w = None /\ parse w = Ok parsed
        /\ get_pos w c
           = (Ok (top_pos parsed),
              if Z.of_nat (size c) <? cache_size
              then <[w := top_pos parsed]> c else c)).
Proof.
  unfold _get_pos. destruct (truthy w) eqn:Ew; simpl negb; cbv iota.
  2: { left. destruct w; [split; reflexivity|discriminate Ew]. }
  right. destruct (c !! w) as [pos|] eqn:Ec.
  - left. exists pos. split; reflexivity.
  - right. destruct (parse w) as [parsed|e] eqn:Ep.
    + right. exists parsed. repeat split; try reflexivity.
      destruct w; [discriminate Ew|congruence].
    + left. exists e. repeat split; try reflexivity.
      destruct w; [discriminate Ew|congruence].
Qed.

(** A lookup leaves the cache as it is or adds one fresh word to a cache
    that is not full. *)
Lemma get_pos_cache (w : str) (c : gmap str str) :
  snd (get_pos w c) = c
  \/ (exists pos, c !! w = None /\ Z.of_nat (size c) < cache_size
                  /\ pos_of w = Ok pos
                  /\ snd (get_pos w c) = <[w := pos]> c).
Proof.
  destruct (get_pos_cases w c)
    as [[_ E]|[(pos & _ & E)|[(e & _ & _ & _ & E)|(parsed & Hw & Hc & Hp & E)]]];
    rewrite E; simpl; auto.
  destruct (Z.ltb_spec (Z.of_nat (size c)) cache_size) as [Hlt|Hge]; auto.
  right. exists (top_pos parsed). repeat split; auto.
  unfold pos_of. destruct w; [congruence|]. simpl. now rewrite Hp.
Qed.

Lemma get_pos_size (w : str) (c : gmap str str) :
  Z.of_nat (size c) <= cache_size ->
  Z.of_nat (size (snd (get_pos w c))) <= cache_size.
Proof.
  intros H. destruct (get_pos_cache w c) as [->|(pos & Hc & Hlt & _ & ->)];
    [exact H|].
  rewrite map_size_insert_None by exact Hc. lia.
Qed.

Lemma get_pos_full (w : str) (c : gmap str str) :
  cache_size <= Z.of_nat (size c) -> snd (get_pos w c) = c.
Proof.
  intros H. destruct (get_pos_cache w c) as [E|(pos & _ & Hlt & _)];
    [exact E|lia].
Qed.

Lemma get_pos_keeps (w k : str) (v : str) (c : gmap str str) :
  c !! k = Some v -> snd (get_pos w c) !! k = Some v.
Proof.
  intros H. destruct (get_pos_cache w c) as [->|(pos & Hc & _ & _ & ->)];
    [exact H|].
  rewrite lookup_insert_ne; [exact H|congruence].
Qed.

Lemma get_pos_cache_ok (w : str) (c : gmap str str) :
  cache_ok c -> cache_ok (snd (get_pos w c)).
Proof.
  intros H. destruct (get_pos_cache w c) as [->|(pos & Hc & _ & Hp & ->)];
    [exact H|].
  intros k v. rewrite lookup_insert. destruct (decide (w = k)) as [<-|Hne].
  - intros [= <-]. exact Hp.
  - apply H.
Qed.

(** With a faithful cache, a lookup answers what the analyzer would. *)
Lemma get_pos_answer (w : str) (c : gmap str str) :
  cache_ok c -> fst (get_pos w c) = pos_of w.
Proof.
  intros H. destruct (get_pos_cases w c)
    as [[-> E]|[(pos & Hc & E)
               |[(e & Hw & Hc & Hp & E)|(parsed & Hw & Hc & Hp & E)]]];
    rewrite E; simpl.
  - reflexivity.
  - symmetry. now apply H.
  - unfold pos_of. destruct w; [congruence|]. simpl. now rewrite Hp.
  - unfold pos_of. destruct w; [congruence|]. simpl. now rewrite Hp.
Qed.

(** What every lookup preserves, every sequence of calls preserves. *)
Section Preserved.
Variable P : gmap str str -> Prop.
Hypothesis step : forall w c, P c -> P (snd (get_pos w c)).

Lemma get_pos_all_preserves (ws : list str) (c : gmap str str) :
  P c -> P (snd (get_pos_all cache_size ws c)).
Proof.
  revert c. induction ws as [|w ws IH]; intros c Hc; simpl; [exact Hc|].
  unfold bindM. pose proof (step w c Hc) as Hw.
  destruct (get_pos w c) as [[pos|e] c1]; simpl in *; [|exact Hw].
  pose proof (IH c1 Hw) as Hws.
  destruct (get_pos_all cache_size ws c1) as [[rest|e] c2]; exact Hws.
Qed.

Lemma compute_cache (text : str) (c : gmap str str) :
  snd (compute cache_size text c)
  = snd (get_pos_all cache_size (_extract_words text) c).
Proof.
  unfold compute. destruct (_extract_words text) as [|w ws] eqn:E;
    [reflexivity|].
  change (negb (truthy (w :: ws))) with false. cbv iota.
  unfold bindM at 1.
  destruct (get_pos_all cache_size (w :: ws) c) as [[pos_list|e] c1];
    [|reflexivity].
  unfold bindM, lift, ret. simpl snd.
  destruct (_compute_perfective_verb_ratio (w :: ws)); [|reflexivity].
  destruct (_count_diminutives (w :: ws)); [|reflexivity].
  destruct (unique_lemmas (w :: ws)); reflexivity.
Qed.

Lemma exec_preserves (call : call) (c : gmap str str) :
  P c -> P (exec cache_size call c).
Proof.
  intros Hc. destruct call as [w|text]; simpl.
  - now apply step.
  - rewrite compute_cache. now apply get_pos_all_preserves.
Qed.

Lemma run_preserves (calls : list call) (c : gmap str str) :
  P c -> P (run cache_size calls c).
Proof.
  unfold run. revert c. induction calls as [|call calls IH]; intros c Hc;
    simpl; [exact Hc|].
  apply IH. now apply exec_preserves.
Qed.
End Preserved.

Lemma cache_ok_init : cache_ok init_cache.
Proof. intros w pos. unfold init_cache. now rewrite lookup_empty. Qed.

Lemma run_cache_ok (calls : list call) :
  cache_ok (run cache_size calls init_cache).
Proof.
  apply run_preserves; [|exact cache_ok_init].
  intros w c. apply get_pos_cache_ok.
Qed.

(** C7. With a capacity [c >= 0], after any sequence of calls on an
    instance the cache holds at most [c] entries; once it holds [c] entries
    no further call changes it; and an entry that is in the cache stays in it,
    with the same tag, whatever calls follow. *)
Theorem cache_bounded_and_stable (calls more : list call) :
  0 <= cache_size ->
  let cache := run cache_size calls init_cache in
  Z.of_nat (size cache) <= cache_size
  /\ (Z.of_nat (size cache) = cache_size ->
      run cache_size more cache = cache)
  /\ (forall w pos, cache !! w = Some pos ->
      run cache_size more cache !! w = Some pos).
Proof.
  intros Hcap cache. split; [|split].
  - apply (run_preserves (fun c => Z.of_nat (size c) <= cache_size)).
    + intros w c. apply get_pos_size.
    + unfold init_cache. rewrite map_size_empty. exact Hcap.
  - intros Hfull.
    apply (run_preserves (fun c => c = cache)); [|reflexivity].
    intros w c ->. apply get_pos_full. lia.
  - intros w pos Hin.
    apply (run_preserves (fun c => c !! w = Some pos)); [|exact Hin].
    intros w' c. apply get_pos_keeps.
Qed.

Lemma get_pos_all_answer (ws : list str) (c : gmap str str) :
  cache_ok c -> fst (get_pos_all cache_size ws c) = pos_all ws.
Proof.
  revert c. induction ws as [|w ws IH]; intros c Hc; simpl; [reflexivity|].
  unfold bindM. pose proof (get_pos_answer w c Hc) as Hw.
  pose proof (get_pos_cache_ok w c Hc) as Hc1.
  destruct (get_pos w c) as [[pos|e] c1]; simpl in Hw, Hc1; rewrite <- Hw;
    simpl; [|reflexivity].
  specialize (IH c1 Hc1).
  destruct (get_pos_all cache_size ws c1) as [[rest|e] c2]; simpl in IH;
    rewrite <- IH; reflexivity.
Qed.

Lemma bindM_answer {A B} (m : M A) (k : A -> M B) (c1 c2 : gmap str str) :
  fst (m c1) = fst (m c2) ->
  (forall a c c', fst (k a c) = fst (k a c')) ->
  fst (bindM m k c1) = fst (bindM m k c2).
Proof.
  unfold bindM. intros Hm Hk.
  destruct (m c1) as [r1 c1'], (m c2) as [r2 c2']. simpl in Hm. subst r2.
  destruct r1; [apply Hk|reflexivity].
Qed.

(** What [compute] returns or raises, as a function of the tags of the
    words: the cache has no part in it. *)
Lemma compute_answer (text : str) (c1 c2 : gmap str str) :
  cache_ok c1 -> cache_ok c2 ->
  fst (compute cache_size text c1) = fst (compute cache_size text c2).
Proof.
  intros H1 H2. unfold compute.
  destruct (_extract_words text) as [|w ws]; [reflexivity|].
  change (negb (truthy (w :: ws))) with false. cbv iota.
  apply bindM_answer.
  - now rewrite !get_pos_all_answer.
  - intros pos_list c c'. unfold bindM, lift, ret.
    destruct (_compute_perfective_verb_ratio (w :: ws)); [|reflexivity].
    destruct (_count_diminutives (w :: ws)); [|reflexivity].
    destruct (unique_lemmas (w :: ws)); reflexivity.
Qed.

Lemma compute_cache_ok (text : str) (c : gmap str str) :
  cache_ok c -> cache_ok (snd (compute cache_size text c)).
Proof.
  intros Hc. rewrite compute_cache.
  apply get_pos_all_preserves; [|exact Hc].
  intros w c'. apply get_pos_cache_ok.
Qed.

(** C8. With a deterministic analyzer, [compute] on a text gives the same
    result (the same mapping, or the same exception) whatever calls the
    instance has served before: the same as on a fresh instance, and the same
    again when it is called a second time. The cache decides only whether the
    analyzer is asked. (The other three analyzers keep no state: their
    [compute] is a function of the text.) *)
Theorem compute_idempotent (calls : list call) (text : str) :
  let cache := run cache_size calls init_cache in
  fst (compute cache_size text cache)
    = fst (compute cache_size text init_cache)
  /\ fst (compute cache_size text (snd (compute cache_size text cache)))
    = fst (compute cache_size text cache).
Proof.
  intros cache. pose proof (run_cache_ok calls) as Hc. fold cache in Hc.
  split.
  - apply compute_answer; [exact Hc|exact cache_ok_init].
  - apply compute_answer; [|exact Hc]. now apply compute_cache_ok.
Qed.

(** *** What the nine counts are *)

Lemma str_eqb_eq (a b : str) : str_eqb a b = true <-> a = b.
Proof.
  revert b. induction a as [|x a IH]; intros [|y b]; simpl;
    try (split; [discriminate|congruence]); [tauto|].
  rewrite andb_true_iff, N.eqb_eq, IH. split; [intros [-> ->]|intros [= -> ->]];
    auto.
Qed.

Lemma counter_get_fold (l : list str) (c : gmap str Z) (k : str) :
  counter_get
    (fold_left (fun c x => <[x := default 0 (c !! x) + 1]> c) l c) k
  = counter_get c k + count (fun x => str_eqb x k) l.
Proof.
  revert c. induction l as [|x l IH]; intros c; simpl.
  - unfold count, len. simpl. lia.
  - rewrite IH. unfold counter_get, count, len. simpl.
    destruct (str_eqb x k) eqn:E.
    + apply str_eqb_eq in E as ->. rewrite lookup_insert_eq. simpl length.
      simpl default. lia.
    + rewrite lookup_insert_ne; [lia|].
      intros ->. rewrite (proj2 (str_eqb_eq k k) eq_refl) in E. discriminate.
Qed.

Lemma counter_get_Counter (l : list str) (k : str) :
  counter_get (Counter l) k = count (fun x => str_eqb x k) l.
Proof.
  unfold Counter. rewrite counter_get_fold. unfold counter_get.
  now rewrite lookup_empty.
Qed.

Lemma tagged_pos_all (ws : list str) (l : list str) (pos : str) :
  pos_all ws = Ok l -> count (fun t => str_eqb t pos) l = tagged pos ws.
Proof.
  revert l. induction ws as [|w ws IH]; intros l; simpl.
  - intros [= <-]. reflexivity.
  - unfold tagged, count, len in *. simpl.
    destruct (pos_of w) as [t|e]; simpl; [|discriminate].
    destruct (pos_all ws) as [rest|e]; simpl; [|discriminate].
    intros [= <-]. specialize (IH rest eq_refl). simpl.
    destruct (str_eqb t pos); simpl length; lia.
Qed.

(** The counts [compute] reports under nouns, verbs and adjectives are the
    numbers of words with the raw tags NOUN, VERB and ADJF; pronouns is the
    sum over NPRO, ADJPRO and PRTFPRO. *)
Lemma reported_counts (calls : list call) (text : str) (d : dict) :
  let words := _extract_words text in
  words <> [] ->
  fst (compute cache_size text (run cache_size calls init_cache)) = Ok d ->
  dict_get d (u "nouns") = Some (VInt (tagged (u "NOUN") words))
  /\ dict_get d (u "verbs") = Some (VInt (tagged (u "VERB") words))
  /\ dict_get d (u "adjectives") = Some (VInt (tagged (u "ADJF") words))
  /\ dict_get d (u "pronouns")
     = Some (VInt (tagged (u "NPRO") words + tagged (u "ADJPRO") words
                   + tagged (u "PRTFPRO") words)).
Proof.
  intros words Hne. unfold compute. fold words.
  destruct words as [|w ws]; [congruence|].
  change (negb (truthy (w :: ws))) with false. cbv iota.
  unfold bindM at 1.
  pose proof (get_pos_all_answer (w :: ws) _ (run_cache_ok calls)) as E.
  destruct (get_pos_all cache_size (w :: ws) _) as [r c1]. cbn [fst] in E.
  subst r. destruct (pos_all (w :: ws)) as [pos_list|e] eqn:Ep;
    [|discriminate].
  unfold bindM, lift, ret.
  destruct (_compute_perfective_verb_ratio (w :: ws)); [|discriminate].
  destruct (_count_diminutives (w :: ws)); [|discriminate].
  destruct (unique_lemmas (w :: ws)); [|discriminate].
  cbn [fst]. intros [= <-].
  repeat split; dict_lookup; rewrite !counter_get_Counter;
    now rewrite !(tagged_pos_all _ _ _ Ep).
Qed.

(** *** Words without candidates *)

Lemma parse_ok_cases (w : str) :
  parse_ok w = true ->
  parse w = Ok []
  \/ exists p ps, parse w = Ok (p :: ps)
       /\ (is_verb_or_infn (POS (tag p)) = true ->
           exists a, aspect (tag p) = Some a).
Proof.
  unfold parse_ok. destruct (parse w) as [[|p ps]|e]; intros H;
    [left; reflexivity| |discriminate H].
  right. exists p, ps. split; [reflexivity|]. intros Hv. rewrite Hv in H.
  destruct (aspect (tag p)) as [a|]; [now exists a|discriminate H].
Qed.

Lemma pos_all_ok (ws : list str) :
  forallb parse_ok ws = true -> exists l, pos_all ws = Ok l.
Proof.
  induction ws as [|w ws IH]; simpl; [now exists []|].
  intros H. apply andb_true_iff in H as [Hw Hws].
  destruct (IH Hws) as [l Hl]. rewrite Hl. unfold pos_of.
  destruct (truthy w); simpl; [|eauto].
  destruct (parse_ok_cases w Hw) as [E|(p & ps & E & _)]; rewrite E; simpl;
    eauto.
Qed.

Lemma perfective_loop_ok (ws : list str) (a b : Z) :
  forallb parse_ok ws = true -> exists r, perfective_loop ws a b = Ok r.
Proof.
  revert a b. induction ws as [|w ws IH]; intros a b; simpl; [eauto|].
  intros H. apply andb_true_iff in H as [Hw Hws].
  destruct (parse_ok_cases w Hw) as [E|(p & ps & E & Ha)]; rewrite E; simpl;
    [auto|].
  destruct (is_verb_or_infn (POS (tag p))); [|auto].
  destruct (Ha eq_refl) as [asp ->]. simpl.
  destruct (contains asp (u "perf")); auto.
Qed.

Lemma count_diminutives_ok (ws : list str) (n : Z) :
  forallb parse_ok ws = true -> exists r, _count_diminutives_from ws n = Ok r.
Proof.
  revert n. induction ws as [|w ws IH]; intros n; simpl; [eauto|].
  intros H. apply andb_true_iff in H as [Hw Hws]. unfold norm_or_word.
  destruct (parse_ok_cases w Hw) as [E|(p & ps & E & _)]; rewrite E; simpl;
    rewrite ?E; simpl;
    match goal with |- context [if ?b then _ else _] => destruct b end; auto.
Qed.

Lemma lemmas_ok (ws : list str) :
  forallb parse_ok ws = true -> lemmas ws = Ok (top_lemmas ws).
Proof.
  induction ws as [|w ws IH]; simpl; [reflexivity|].
  intros H. apply andb_true_iff in H as [Hw Hws].
  unfold top_lemmas in *. simpl.
  destruct (parse_ok_cases w Hw) as [E|(p & ps & E & _)]; rewrite E; simpl.
  - auto.
  - rewrite ?E. simpl. now rewrite (IH Hws).
Qed.

(** C9, amended. A word for which the analyzer returns no candidates is
    tagged UNKNOWN and adds nothing to the lemma set; and when the analyzer
    raises on no word of the text (and a verb or infinitive on top carries its
    aspect), [compute] returns a result mapping. Nothing is caught: the
    guarantee is for an analyzer that returns. *)
Theorem empty_parse_degrades (calls : list call) (text : str) :
  forallb parse_ok (_extract_words text) = true ->
  let cache := run cache_size calls init_cache in
  exists d,
    fst (compute cache_size text cache) = Ok d
    /\ dict_get d (u "unique_lemmas")
       = Some (VInt (Z.of_nat
            (size (list_to_set (top_lemmas (_extract_words text))
                   : gset str))))
    /\ (forall w, parse w = Ok [] -> fst (get_pos w cache) = Ok (u "UNKNOWN")).
Proof.
  intros Hok cache. pose proof (run_cache_ok calls) as Hc. fold cache in Hc.
  assert (Hunk : forall w, parse w = Ok [] ->
                           fst (get_pos w cache) = Ok (u "UNKNOWN")).
  { intros w Hw. rewrite (get_pos_answer w cache Hc). unfold pos_of.
    destruct (truthy w); simpl; [now rewrite Hw|reflexivity]. }
  unfold compute.
  destruct (_extract_words text) as [|w ws] eqn:Ew.
  { exists _empty_result. split; [reflexivity|]. split; [|exact Hunk].
    vm_compute. reflexivity. }
  change (negb (truthy (w :: ws))) with false. cbv iota.
  unfold bindM at 1.
  pose proof (get_pos_all_answer (w :: ws) cache Hc) as E.
  destruct (get_pos_all cache_size (w :: ws) cache) as [r c1].
  cbn [fst] in E.
  destruct (pos_all_ok _ Hok) as [pos_list Hp]. rewrite Hp in E. subst r.
  unfold bindM, lift, ret, _compute_perfective_verb_ratio, _count_diminutives,
    unique_lemmas.
  destruct (perfective_loop_ok _ 0 0 Hok) as [[pc vc] ->].
  destruct (count_diminutives_ok _ 0 Hok) as [dn ->].
  rewrite (lemmas_ok _ Hok). simpl bind. cbv beta iota.
  eexists. split; [reflexivity|]. split; [|exact Hunk].
  dict_lookup. reflexivity.
Qed.

(** An exception of the analyzer is not caught: [compute] raises. *)
Lemma perfective_loop_raises (ws : list str) (a b : Z) :
  existsb parse_raises ws = true -> exists e, perfective_loop ws a b = Raise e.
Proof.
  revert a b. induction ws as [|w ws IH]; intros a b; simpl; [discriminate|].
  unfold parse_raises at 1. destruct (parse w) as [[|p ps]|e]; simpl;
    [auto| |eauto].
  intros H. destruct (is_verb_or_infn (POS (tag p))); [|auto].
  destruct (aspect (tag p)) as [asp|]; simpl; [|eauto].
  destruct (contains asp (u "perf")); auto.
Qed.

Lemma raising_parse_propagates (text : str) (c : gmap str str) :
  existsb parse_raises (_extract_words text) = true ->
  exists e, fst (compute cache_size text c) = Raise e.
Proof.
  intros H. unfold compute.
  destruct (_extract_words text) as [|w ws]; [discriminate H|].
  change (negb (truthy (w :: ws))) with false. cbv iota.
  unfold bindM at 1.
  destruct (get_pos_all cache_size (w :: ws) c) as [[pos_list|e] c1];
    [|eauto].
  unfold bindM at 1. unfold lift at 1. unfold _compute_perfective_verb_ratio.
  destruct (perfective_loop_raises _ 0 0 H) as [e ->]. simpl. eauto.
Qed.

End Classifier.

(** One call on an instance of capacity 1: the second word finds the cache
    full. *)
Lemma cache_bounded_and_stable_witness :
  0 <= 1
  /\ Z.of_nat (size (@MorphoMetrics.run ucd_basic Stub.morph 1
                       [MorphoMetrics.CallCompute (u "Он спит.")]
                       MorphoMetrics.init_cache)) <= 1.
Proof.
  split; [lia|].
  refine (proj1 (@cache_bounded_and_stable ucd_basic Stub.morph 1
                   [MorphoMetrics.CallCompute (u "Он спит.")] [] _)).
  lia.
Defined.

(** A text whose last word the dictionary does not know. *)
Lemma empty_parse_degrades_witness :
  forallb (@parse_ok Stub.morph)
    (@MorphoMetrics._extract_words ucd_basic (u "Он спит, зюзя.")) = true
  /\ exists d,
      fst (@MorphoMetrics.compute ucd_basic Stub.morph 100000
             (u "Он спит, зюзя.") MorphoMetrics.init_cache)
      = MorphoMetrics.Ok d
      /\ dict_get d (u "unique_lemmas") = Some (VInt 2).
Proof.
  split; [vm_compute; reflexivity|].
  destruct (@empty_parse_degrades ucd_basic Stub.morph 100000 []
              (u "Он спит, зюзя.") ltac:(vm_compute; reflexivity))
    as (d & Hd & Hl & _).
  exists d. split; [exact Hd|]. rewrite Hl. vm_compute. reflexivity.
Defined.

(** C9 as stated does not hold for an analyzer that raises on a word: the
    exception leaves [compute], and no result mapping is returned. *)
Lemma raising_parse_is_not_caught :
  MorphoMetrics.parse (MorphAnalyzer := Stub.morph_failing) (u "сбой")
    = MorphoMetrics.Raise (MorphoMetrics.MorphError (u "KeyError"))
  /\ ~ (exists d,
         fst (@MorphoMetrics.compute ucd_basic Stub.morph_failing 100000
                (u "Кот спит. Сбой!") MorphoMetrics.init_cache)
         = MorphoMetrics.Ok d).
Proof.
  split; [vm_compute; reflexivity|].
  intros [d H]. vm_compute in H. discriminate H.
Qed.

(** C1 at the text "Он спит.": the analyzer tags the two words NPRO and
    VERB, so nouns together with pronoun-nouns are 1 and verbs 1; [compute]
    reports 0 nouns (the NOUN tag alone), 1 verb and 1 pronoun. *)
Theorem nouns_reported_without_pronoun_nouns :
  exists d,
    @MorphoMetrics.compute ucd_basic Stub.morph 100000 (u "Он спит.")
      MorphoMetrics.init_cache
    = (MorphoMetrics.Ok d,
       {[ u "он" := u "NPRO"; u "спит" := u "VERB" ]})
    /\ @MorphoMetrics._extract_words ucd_basic (u "Он спит.")
       = [u "он"; u "спит"]
    /\ tagged (morph := Stub.morph) (u "NOUN") [u "он"; u "спит"]
       + tagged (morph := Stub.morph) (u "NPRO") [u "он"; u "спит"] = 1
    /\ dict_get d (u "nouns") = Some (VInt 0)
    /\ dict_get d (u "pronouns") = Some (VInt 1)
    /\ dict_get d (u "verbs") = Some (VInt 1).
Proof.
  eexists. split; [vm_compute; reflexivity|].
  repeat split; vm_compute; reflexivity.
Qed.

(* ===================================================================== *)
(** * Further properties                                                  *)
(* ===================================================================== *)

Import PyMore Lang Shapes.

(** ** The matcher *)

Section MatcherFacts.
Context {U : UCD}.

(** Whatever the matcher returns went through its continuation at a
    position reached by consuming a text of the pattern's language. *)
Lemma rmatch_sound (r : regex) :
  forall prev s k x,
    rmatch r prev s k = Some x ->
    exists m s' prev', s = m ++ s' /\ lang r m /\ k prev' s' = Some x.
Proof.
  induction r as [p| | |r1 IH1 r2 IH2|r1 IH1]; intros prev s k x; simpl.
  - destruct s as [|c s']; [discriminate|].
    destruct (p c) eqn:Hp; [|discriminate].
    intros H. exists [c], s', (Some c). repeat split; auto. now constructor.
  - destruct (xorb _ _); [|discriminate].
    intros H. exists [], s, prev. repeat split; auto. constructor.
  - intros H. exists [], s, prev. repeat split; [constructor|].
    destruct prev as [c|]; [|exact H].
    destruct (c =? 10)%N; [exact H|discriminate].
  - intros H. apply IH1 in H as (m1 & s1 & p1 & -> & L1 & H).
    apply IH2 in H as (m2 & s2 & p2 & -> & L2 & H).
    exists (m1 ++ m2), s2, p2. rewrite <- app_assoc.
    repeat split; auto. now constructor.
  - generalize (length s) at 1. intros fuel. revert prev s.
    induction fuel as [|fuel IHf]; intros prev s.
    + intros H. exists [], s, prev. repeat split; auto. constructor.
    + destruct (rmatch r1 prev s _) as [rest|] eqn:E.
      * intros [= ->]. apply IH1 in E as (m1 & s1 & p1 & -> & L1 & E).
        destruct (length s1 <? length (m1 ++ s1))%nat; [|discriminate].
        apply IHf in E as (m2 & s2 & p2 & -> & L2 & E).
        exists (m1 ++ m2), s2, p2. rewrite <- app_assoc.
        repeat split; auto. now constructor.
      * intros H. exists [], s, prev. repeat split; auto. constructor.
Qed.

(** A match found at a position is a prefix of the input there and belongs
    to the language of the pattern. *)
Lemma match_here_sound (r : regex) prev s m rest :
  match_here r prev s = Some (m, rest) -> s = m ++ rest /\ lang r m.
Proof.
  unfold match_here. destruct (rmatch r prev s _) as [x|] eqn:E;
    [|discriminate].
  intros [= <- <-]. apply rmatch_sound in E as (m & s' & _ & -> & L & [= <-]).
  rewrite length_app. replace (length m + length s' - length s')%nat
    with (length m) by lia.
  rewrite take_app_length. auto.
Qed.

End MatcherFacts.

(** ** Languages of the patterns the sources use *)

Lemma lang_set_inv p m : lang (RSet p) m -> exists c, m = [c] /\ p c = true.
Proof. inversion 1; subst. eauto. Qed.

Lemma lang_star_set p m :
  lang (RStar (RSet p)) m -> Forall (fun c => p c = true) m.
Proof.
  remember (RStar (RSet p)) as r eqn:E. induction 1 as
    [| | | |r0|r0 m1 m2 H1 _ H2 IH2]; inversion E; subst; [constructor|].
  apply lang_set_inv in H1 as (c & -> & Hc). simpl. constructor; auto.
Qed.

Lemma lang_plus_set p m :
  lang (RPlus (RSet p)) m ->
  exists c m', m = c :: m' /\ p c = true /\ Forall (fun c => p c = true) m'.
Proof.
  unfold RPlus. inversion 1 as [| | |r1 r2 m1 m2 H1 H2| |]; subst.
  apply lang_set_inv in H1 as (c & -> & Hc). apply lang_star_set in H2.
  exists c, m2. auto.
Qed.

Lemma lang_wordb_inv m : lang RWordB m -> m = [].
Proof. now inversion 1. Qed.

Lemma hyphenated_run p c cs t :
  p c = true -> Forall (fun c => p c = true) cs ->
  t = [] \/ (exists w, t = 45%N :: w /\ hyphenated p w) ->
  hyphenated p (c :: cs ++ t).
Proof.
  intros Hc Hcs Ht. revert c Hc. induction Hcs as [|d cs Hd _ IH];
    intros c Hc; simpl.
  - destruct Ht as [->|(w & -> & Hw)]; now constructor.
  - apply hyph_more; auto.
Qed.

Lemma lang_hyphen_groups p t :
  lang (RStar (RSeq (RChr 45%N) (RPlus (RSet p)))) t ->
  t = [] \/ (exists w, t = 45%N :: w /\ hyphenated p w).
Proof.
  remember (RStar (RSeq (RChr 45%N) (RPlus (RSet p)))) as r eqn:E.
  induction 1 as [| | | |r0|r0 m1 m2 H1 _ H2 IH2]; inversion E; subst;
    [now left|].
  right. inversion H1 as [| | |r1 r2 h g Hh Hg| |]; subst.
  apply lang_set_inv in Hh as (c0 & -> & Hc0). apply N.eqb_eq in Hc0 as <-.
  apply lang_plus_set in Hg as (c & cs & -> & Hc & Hcs).
  exists ((c :: cs) ++ m2). split; [now rewrite <- app_assoc|].
  apply hyphenated_run; auto.
Qed.

(** What the word pattern [\b L+(?:-L+)*\b] matches, for a letter set [L]. *)
Lemma lang_word_pattern p m :
  lang (RSeq RWordB
          (RSeq (RPlus (RSet p))
             (RSeq (RStar (RSeq (RChr 45%N) (RPlus (RSet p)))) RWordB))) m ->
  hyphenated p m.
Proof.
  inversion 1 as [| | |? ? b m1 Hb H1| |]; subst.
  apply lang_wordb_inv in Hb as ->.
  inversion H1 as [| | |? ? m2 m3 H2 H3| |]; subst.
  apply lang_plus_set in H2 as (c & cs & -> & Hc & Hcs).
  inversion H3 as [| | |? ? m4 e H4 He| |]; subst.
  apply lang_wordb_inv in He as ->. rewrite app_nil_r. simpl.
  apply hyphenated_run; auto. now apply lang_hyphen_groups.
Qed.

(** What [\b L+\b] matches: a non-empty run of letters. *)
Lemma lang_plain_word_pattern p m :
  lang (RSeq RWordB (RSeq (RPlus (RSet p)) RWordB)) m ->
  m <> [] /\ Forall (fun c => p c = true) m.
Proof.
  inversion 1 as [| | |? ? b m1 Hb H1| |]; subst.
  apply lang_wordb_inv in Hb as ->.
  inversion H1 as [| | |? ? m2 e H2 He| |]; subst.
  apply lang_wordb_inv in He as ->. rewrite app_nil_r. simpl.
  apply lang_plus_set in H2 as (c & cs & -> & Hc & Hcs).
  split; [discriminate|]. now constructor.
Qed.

Lemma hyphenated_facts p w :
  hyphenated p w ->
  w <> []
  /\ Forall (fun c => p c = true \/ c = 45%N) w
  /\ (forall d, p (hd d w) = true)
  /\ (forall d, p (List.last w d) = true).
Proof.
  induction 1 as [c Hc|c w Hc Hw (Hne & Hall & Hh & Hl)
                 |c w Hc Hw (Hne & Hall & Hh & Hl)].
  - split; [discriminate|]. split; [constructor; [left|]; auto|]. auto.
  - split; [discriminate|]. split; [constructor; auto|]. split; [auto|].
    intros d. destruct w; [congruence|]. apply Hl.
  - split; [discriminate|].
    split; [constructor; [left; auto|constructor; [right|]; auto]|].
    split; [auto|]. intros d. destruct w; [congruence|]. apply Hl.
Qed.

(** ** Segmentation *)

Section Segmenter.
Context {U : UCD}.

(** Every text [re.findall] returns belongs to the language of the pattern
    and occurs in the searched text. *)
Lemma findall_from_sound (fuel : nat) (r : regex) :
  forall prev s,
    Forall (fun m => lang r m /\ exists pre post, s = pre ++ m ++ post)
           (findall_from fuel r prev s).
Proof.
  induction fuel as [|fuel IH]; intros prev s; simpl; [constructor|].
  destruct (match_here r prev s) as [[[|c m] rest]|] eqn:E.
  - apply match_here_sound in E as [Hs L]. simpl in Hs. subst rest.
    destruct s as [|c s'].
    + repeat constructor; auto. now exists [], [].
    + constructor; [split; [exact L|now exists [], (c :: s')]|].
      eapply List.Forall_impl; [|apply IH]. intros m [Lm (pre & post & ->)].
      split; [exact Lm|]. now exists (c :: pre), post.
  - apply match_here_sound in E as [-> L].
    constructor; [split; [exact L|now exists [], rest]|].
    eapply List.Forall_impl; [|apply IH]. intros w [Lw (pre & post & ->)].
    split; [exact Lw|]. exists ((c :: m) ++ pre), post.
    now rewrite <- !app_assoc.
  - destruct s as [|c s']; [constructor|].
    eapply List.Forall_impl; [|apply IH]. intros w [Lw (pre & post & ->)].
    split; [exact Lw|]. now exists (c :: pre), post.
Qed.

Lemma findall_sound (r : regex) (s m : str) :
  In m (findall r s) -> lang r m /\ exists pre post, s = pre ++ m ++ post.
Proof.
  intros H. pose proof (findall_from_sound (S (length s)) r None s) as F.
  rewrite List.Forall_forall in F. now apply F.
Qed.

(** X2. Every word the descriptive analyzer and the index calculator
    extract occurs in the lower-cased text and is a hyphenated word over
    [а-яё]: it starts and ends with a letter, and every hyphen stands between
    two letters. *)
Theorem extracted_words_are_hyphenated (text w : str) :
  (In w (DescriptiveTextMetrics._extract_words text)
   \/ In w (Readability.ReadabilityIndexCalculator._extract_words text)) ->
  hyphenated DescriptiveTextMetrics.cyr_lower w
  /\ (exists pre post, lower text = pre ++ w ++ post)
  /\ w <> []
  /\ Forall (fun c => DescriptiveTextMetrics.cyr_lower c = true \/ c = 45%N) w
  /\ (forall d, DescriptiveTextMetrics.cyr_lower (hd d w) = true)
  /\ (forall d, DescriptiveTextMetrics.cyr_lower (List.last w d) = true).
Proof.
  intros H.
  assert (Hin : In w (findall DescriptiveTextMetrics.word_re (lower text)))
    by (destruct H as [H|H]; exact H).
  apply findall_sound in Hin as [L Hsub].
  apply lang_word_pattern in L.
  split; [exact L|]. split; [exact Hsub|]. now apply hyphenated_facts.
Qed.

(** X3. Every word the surface analyzer finds in a sentence occurs in the
    sentence, in its own case, and is a hyphenated word over Cyrillic and
    Latin letters. *)
Theorem surface_words_are_hyphenated (sentence w : str) :
  In w (TextComplexityMetrics._split_words sentence) ->
  hyphenated TextComplexityMetrics.letter w
  /\ (exists pre post, sentence = pre ++ w ++ post)
  /\ w <> []
  /\ Forall (fun c => TextComplexityMetrics.letter c = true \/ c = 45%N) w.
Proof.
  intros Hin. apply findall_sound in Hin as [L Hsub].
  apply lang_word_pattern in L.
  split; [exact L|]. split; [exact Hsub|].
  destruct (hyphenated_facts _ _ L) as (? & ? & _). auto.
Qed.

Lemma classifier_word_shape (text w : str) :
  In w (MorphoMetrics._extract_words text) ->
  w <> []
  /\ Forall (fun c => MorphoMetrics.cyr_lower c = true) w
  /\ exists pre post, lower text = pre ++ w ++ post.
Proof.
  intros Hin. apply findall_sound in Hin as [L Hsub].
  apply lang_plain_word_pattern in L as [Hne Hall]. auto.
Qed.

(** X4. Every word the morphological classifier extracts is a non-empty run
    of letters [а-яё] of the lower-cased text. *)
Theorem classifier_words_are_cyrillic (text w : str) :
  In w (MorphoMetrics._extract_words text) ->
  w <> []
  /\ Forall (fun c => MorphoMetrics.cyr_lower c = true) w
  /\ exists pre post, lower text = pre ++ w ++ post.
Proof.
  intros Hin. apply findall_sound in Hin as [L Hsub].
  apply lang_plain_word_pattern in L as [Hne Hall].
  split; [exact Hne|]. split; [exact Hall|exact Hsub].
Qed.

End Segmenter.

(** Words of a short text. *)
Lemma extracted_words_are_hyphenated_witness :
  hyphenated DescriptiveTextMetrics.cyr_lower (u "из-за")
  /\ u "из-за" <> [].
Proof.
  destruct (@extracted_words_are_hyphenated ucd_basic
              (u "Он ушёл из-за дождя.") (u "из-за"))
    as (H & _ & Hne & _).
  - left. vm_compute. auto.
  - split; assumption.
Defined.

Lemma surface_words_are_hyphenated_witness :
  hyphenated TextComplexityMetrics.letter (u "Wi-Fi").
Proof.
  refine (proj1 (@surface_words_are_hyphenated ucd_basic
                   (u "Дома есть Wi-Fi") (u "Wi-Fi") _)).
  vm_compute. auto.
Defined.

Lemma classifier_words_are_cyrillic_witness : u "кот" <> [].
Proof.
  refine (proj1 (@classifier_words_are_cyrillic ucd_basic
                   (u "Кот спит.") (u "кот") _)).
  vm_compute. auto.
Defined.

(** ** [strip] and sentences *)

Lemma lstrip_suffix (s : str) :
  exists pre, s = pre ++ lstrip s /\ Forall (fun c => isspace c = true) pre.
Proof.
  induction s as [|c s (pre & E & Hpre)]; simpl; [now exists []|].
  destruct (isspace c) eqn:Hc; [|now exists []].
  exists (c :: pre). split; [simpl; congruence|now constructor].
Qed.

Lemma lstrip_head (s : str) (d : codepoint) :
  lstrip s <> [] -> isspace (hd d (lstrip s)) = false.
Proof.
  induction s as [|c s IH]; simpl; [congruence|].
  destruct (isspace c) eqn:Hc; [exact IH|]. intros _. exact Hc.
Qed.

Lemma last_app_nonempty {A} (l1 l2 : list A) (d : A) :
  l2 <> [] -> List.last (l1 ++ l2) d = List.last l2 d.
Proof.
  intros H. induction l1 as [|a l1 IH]; [reflexivity|]. simpl.
  destruct (l1 ++ l2) eqn:E; [|exact IH].
  apply app_eq_nil in E as [_ ->]. congruence.
Qed.

Lemma last_rev_hd {A} (l : list A) (d : A) : List.last (rev l) d = hd d l.
Proof.
  destruct l as [|a l]; [reflexivity|]. simpl.
  rewrite last_app_nonempty by discriminate. reflexivity.
Qed.

Lemma hd_rev_last {A} (l : list A) (d : A) : hd d (rev l) = List.last l d.
Proof. rewrite <- (rev_involutive l) at 2. now rewrite last_rev_hd. Qed.

(** [s.strip()] has no whitespace at either end. *)
Lemma strip_stripped (s : str) : stripped (strip s).
Proof.
  unfold stripped. destruct (strip s) as [|c t] eqn:E; [exact I|].
  unfold strip in E. set (a := lstrip s) in *. set (b := lstrip (rev a)) in *.
  assert (Hb : b <> []) by (intros Hb; rewrite Hb in E; discriminate).
  assert (Ha : a <> []).
  { intros Ha. unfold b in Hb. rewrite Ha in Hb. now apply Hb. }
  rewrite <- E. split.
  - replace c with (hd c (rev b)) by (now rewrite E).
    rewrite hd_rev_last.
    destruct (lstrip_suffix (rev a)) as (pre & Hpre & _). fold b in Hpre.
    rewrite <- (last_app_nonempty pre b c Hb), <- Hpre, last_rev_hd.
    now apply lstrip_head.
  - rewrite last_rev_hd. now apply lstrip_head.
Qed.

(** [s.strip()] keeps only characters of [s]. *)
Lemma strip_Forall (P : codepoint -> Prop) (s : str) :
  Forall P s -> Forall P (strip s).
Proof.
  intros H. unfold strip. apply List.Forall_rev.
  destruct (lstrip_suffix (rev (lstrip s))) as (pre & E & _).
  assert (Forall P (rev (lstrip s))) as F.
  { apply List.Forall_rev. destruct (lstrip_suffix s) as (pre' & E' & _).
    rewrite E' in H. now apply List.Forall_app in H as [_ H]. }
  rewrite E in F. now apply List.Forall_app in F as [_ F].
Qed.

Section Sentences.
Context {U : UCD}.

Lemma star_total (r : regex) prev s k :
  (forall p' s', k p' s' <> None) -> rmatch (RStar r) prev s k <> None.
Proof.
  intros Hk. simpl. destruct (length s) as [|fuel]; [apply Hk|].
  destruct (rmatch r prev s _); [discriminate|apply Hk].
Qed.

(** At a character of the set, [p+] matches a non-empty run of the set. *)
Lemma match_here_plus_set (p : codepoint -> bool) prev c s :
  p c = true ->
  exists m rest,
    match_here (RPlus (RSet p)) prev (c :: s) = Some (c :: m, rest)
    /\ c :: s = (c :: m) ++ rest
    /\ Forall (fun c => p c = true) (c :: m).
Proof.
  intros Hc.
  destruct (match_here (RPlus (RSet p)) prev (c :: s)) as [[m rest]|] eqn:E.
  - pose proof E as E'. apply match_here_sound in E' as [Hs L].
    apply lang_plus_set in L as (c0 & m' & -> & Hc0 & Hm').
    injection Hs as <- Hs. exists m', rest. repeat split; auto.
    now rewrite Hs.
  - exfalso. unfold match_here in E.
    destruct (rmatch (RPlus (RSet p)) prev (c :: s) _) eqn:R;
      [discriminate|].
    unfold RPlus in R. cbn [rmatch] in R. rewrite Hc in R.
    revert R. apply (star_total (RSet p)). discriminate.
Qed.

Lemma match_here_plus_set_fail (p : codepoint -> bool) prev c s :
  p c = false -> match_here (RPlus (RSet p)) prev (c :: s) = None.
Proof. intros Hc. unfold match_here, RPlus. simpl. now rewrite Hc. Qed.

(** The pieces [re.split] cuts at runs of a set hold no character of the
    set. *)
Lemma split_from_free (p : codepoint -> bool) (fuel : nat) :
  forall prev s piece,
    Forall (fun c => p c = false) piece ->
    Forall (Forall (fun c => p c = false))
           (split_from fuel (RPlus (RSet p)) prev s piece).
Proof.
  induction fuel as [|fuel IH]; intros prev s piece Hp; simpl;
    [now repeat constructor|].
  destruct s as [|c s]; [now repeat constructor|].
  destruct (p c) eqn:Hc.
  - destruct (match_here_plus_set p prev c s Hc) as (m & rest & -> & _ & _).
    constructor; [exact Hp|]. apply IH. constructor.
  - rewrite (match_here_plus_set_fail p prev c s Hc).
    apply IH. apply List.Forall_app. split; [exact Hp|]. now repeat constructor.
Qed.

(** Without a character of the set there is nothing to cut. *)
Lemma split_from_whole (p : codepoint -> bool) (fuel : nat) :
  forall prev s piece,
    (length s < fuel)%nat ->
    Forall (fun c => p c = false) s ->
    split_from fuel (RPlus (RSet p)) prev s piece = [piece ++ s].
Proof.
  induction fuel as [|fuel IH]; intros prev s piece Hf Hs; [lia|]. simpl.
  destruct s as [|c s]; [now rewrite app_nil_r|].
  apply List.Forall_cons_iff in Hs as [Hc Hs].
  rewrite (match_here_plus_set_fail p prev c s Hc).
  rewrite IH; [|simpl in Hf; lia|exact Hs]. now rewrite <- app_assoc.
Qed.

(** X1. Every sentence the analyzers work with is non-empty, has no
    whitespace at either end and holds none of the terminators [.], [!],
    [?]. *)
Theorem sentences_are_clean (text s : str) :
  In s (TextComplexityMetrics._split_sentences text) ->
  s <> [] /\ stripped s
  /\ Forall (fun c => TextComplexityMetrics.terminator c = false) s.
Proof.
  unfold TextComplexityMetrics._split_sentences. intros H.
  apply in_map_iff in H as (piece & <- & H).
  apply filter_In in H as [Hin Hne].
  split; [destruct (strip piece); [discriminate Hne|discriminate]|].
  split; [apply strip_stripped|]. apply strip_Forall.
  pose proof (split_from_free TextComplexityMetrics.terminator
                (S (length text)) None text [] ltac:(constructor)) as F.
  rewrite List.Forall_forall in F. now apply F.
Qed.

(** X5. A text without terminators is one sentence, its stripped text; a
    blank one has no sentence. *)
Theorem text_without_terminators_is_one_sentence (text : str) :
  Forall (fun c => TextComplexityMetrics.terminator c = false) text ->
  TextComplexityMetrics._split_sentences text
  = if truthy (strip text) then [strip text] else [].
Proof.
  intros H. unfold TextComplexityMetrics._split_sentences, split.
  rewrite split_from_whole; [|lia|exact H]. simpl.
  destruct (truthy (strip text)); reflexivity.
Qed.

(** The four places that split sentences do it in the same way. *)
Lemma split_sentences_agree (text : str) :
  DescriptiveTextMetrics._split_sentences text
    = TextComplexityMetrics._split_sentences text
  /\ Readability.ReadabilityIndexCalculator._split_sentences text
    = TextComplexityMetrics._split_sentences text
  /\ ReadabilityCopy.DescriptiveTextMetrics._split_sentences text
    = TextComplexityMetrics._split_sentences text.
Proof. repeat split; reflexivity. Qed.

End Sentences.

(** ** Counts *)

Lemma count_bounds {A} (p : A -> bool) (l : list A) :
  0 <= count p l <= len l.
Proof.
  unfold count, len. split; [lia|]. apply inj_le.
  induction l as [|a l IH]; simpl; [lia|]. destruct (p a); simpl; lia.
Qed.

Lemma count_mono {A} (p q : A -> bool) (l : list A) :
  (forall a, p a = true -> q a = true) -> count p l <= count q l.
Proof.
  intros H. unfold count, len. apply inj_le.
  induction l as [|a l IH]; simpl; [lia|].
  destruct (p a) eqn:Hp; [rewrite (H a Hp); simpl; lia|].
  destruct (q a); simpl; lia.
Qed.

Lemma sum_from (l : list Z) (a : Z) : fold_left Z.add l a = a + sum l.
Proof.
  unfold sum. revert a. induction l as [|x l IH]; intros a; simpl; [lia|].
  rewrite (IH (a + x)), (IH (0 + x)). lia.
Qed.

Lemma sum_cons (x : Z) (l : list Z) : sum (x :: l) = x + sum l.
Proof. unfold sum at 1. simpl. now rewrite sum_from. Qed.

Section ReadabilityMore.
Context {U : UCD} {L : Readability.ReadabilityIndexCalculator.Libm}.
Import Readability.ReadabilityIndexCalculator.

(** X6. A word has at least one syllable and at most as many as it has
    characters (one for the empty word); a text has at least as many
    syllables as words. *)
Theorem syllables_bounds (w : str) (words : list str) :
  1 <= _count_syllables_ru w <= Z.max 1 (len w)
  /\ len words <= sum (map _count_syllables_ru words).
Proof.
  split.
  - unfold _count_syllables_ru.
    pose proof (count_bounds (fun ch => char_in ch vowels) w). lia.
  - induction words as [|x words IH]; [reflexivity|].
    simpl map. rewrite sum_cons. unfold len in *. simpl length.
    unfold _count_syllables_ru at 1. lia.
Qed.

(** [compute] in its last branch. *)
Ltac enter_last_branch Hnb Hs Hw :=
  unfold compute; rewrite Hnb; change (negb true) with false; cbv iota zeta;
  rewrite (len_nonempty _ Hs), (len_nonempty _ Hw);
  change (false || false) with false; cbv iota.

Lemma compute_empty_cases (text : str) :
  truthy (strip text) = false \/ _split_sentences text = []
  \/ _extract_words text = [] ->
  compute text = _empty_result.
Proof.
  unfold compute. intros [H|[H|H]].
  - now rewrite H.
  - destruct (negb _); [reflexivity|]. rewrite H.
    now rewrite orb_true_r.
  - destruct (negb _); [reflexivity|]. now rewrite H.
Qed.

(** X7. The index calculator returns its empty result exactly when the text
    is blank or has no sentence or no Cyrillic word; then the hint is 0.0, and
    otherwise it is 1.0 from 20 words on and 0.6 below. *)
Theorem empty_result_iff (text : str) :
  (compute text = _empty_result <->
   truthy (strip text) = false \/ _split_sentences text = []
   \/ _extract_words text = [])
  /\ dict_get (compute text) (u "confidence_hint")
     = Some (VFloat
         (if negb (truthy (strip text))
             || (len (_extract_words text) =? 0)
             || (len (_split_sentences text) =? 0)
          then 0.0%float
          else if 20 <=? len (_extract_words text) then 1.0%float
          else 0.6%float)).
Proof.
  destruct (bool_dec (truthy (strip text)) false) as [Hnb|Hnb].
  { split; [split; [auto|apply compute_empty_cases]|].
    rewrite compute_empty_cases by auto. now rewrite Hnb. }
  destruct (decide (_split_sentences text = [])) as [Hs|Hs].
  { split; [split; [auto|apply compute_empty_cases]|].
    rewrite compute_empty_cases by auto. rewrite Hs.
    now rewrite orb_true_r. }
  destruct (decide (_extract_words text = [])) as [Hw|Hw].
  { split; [split; [auto|apply compute_empty_cases]|].
    rewrite compute_empty_cases by auto. rewrite Hw.
    destruct (negb _); reflexivity. }
  apply not_false_is_true in Hnb.
  split.
  - split; [|intros [H|[H|H]]; congruence].
    intros E. exfalso.
    assert (G : dict_get (compute text) (u "simple_level")
                = Some (VFloat 0%float)) by (rewrite E; reflexivity).
    revert G. enter_last_branch Hnb Hs Hw. dict_lookup.
    intros G. apply some_vfloat_inj in G.
    match type of G with
    | py_round (simple_level_of ?a ?b ?c) 1 = _ =>
        pose proof (proj1 (simple_level_round_clamped a b c)) as B
    end.
    rewrite G in B. discriminate B.
  - rewrite (len_nonempty _ Hs), (len_nonempty _ Hw), Hnb.
    enter_last_branch Hnb Hs Hw. dict_lookup. reflexivity.
Qed.

(** X8. Whatever the text, the result of the index calculator has the same
    thirteen keys, in the same order. *)
Theorem readability_keys (text : str) :
  keys (compute text) = keys _empty_result.
Proof.
  unfold compute. destruct (negb _); [reflexivity|]. cbv zeta.
  destruct (_ || _); reflexivity.
Qed.

(** X9. The counts the index calculator reports are ordered: words of four
    syllables or more are among those of three or more, which are among the
    words, as are the long words; the long sentences are among the
    sentences. *)
Theorem readability_counts_ordered (text : str) :
  exists ge3 ge4 long_sentences long_words : Z,
    dict_get (compute text) (u "polysyllabic_words_ge3") = Some (VInt ge3)
    /\ dict_get (compute text) (u "polysyllabic_words_ge4") = Some (VInt ge4)
    /\ dict_get (compute text) (u "long_sentences_gt15")
       = Some (VInt long_sentences)
    /\ dict_get (compute text) (u "long_words_ge7") = Some (VInt long_words)
    /\ 0 <= ge4 <= ge3 /\ ge3 <= len (_extract_words text)
    /\ 0 <= long_words <= len (_extract_words text)
    /\ 0 <= long_sentences <= len (_split_sentences text).
Proof.
  unfold compute. destruct (negb _).
  { exists 0, 0, 0, 0. unfold len. repeat split; try reflexivity; lia. }
  cbv zeta. destruct (_ || _).
  { exists 0, 0, 0, 0. unfold len. repeat split; try reflexivity; lia. }
  eexists _, _, _, _.
  split; [dict_lookup; reflexivity|]. split; [dict_lookup; reflexivity|].
  split; [dict_lookup; reflexivity|]. split; [dict_lookup; reflexivity|].
  set (syl := map _count_syllables_ru (_extract_words text)).
  assert (Hl : len syl = len (_extract_words text))
    by (unfold syl, len; now rewrite length_map).
  pose proof (count_bounds (fun s => 4 <=? s) syl).
  pose proof (count_bounds (fun s => 3 <=? s) syl).
  pose proof (count_mono (fun s => 4 <=? s) (fun s => 3 <=? s) syl) as M.
  pose proof (count_bounds (fun w => 7 <=? len w) (_extract_words text)).
  pose proof (count_bounds (fun s => 15 <? len (_extract_words s))
                (_split_sentences text)).
  assert (count (fun s => 4 <=? s) syl <= count (fun s => 3 <=? s) syl).
  { apply M. intros a Ha. apply Z.leb_le in Ha. apply Z.leb_le. lia. }
  rewrite Hl in H, H0.
  split; [split; [apply H|exact H3]|]. split; [apply H0|].
  split; [exact H1|exact H2].
Qed.

Lemma interpret_flesch_easy (score : float) :
  (70 <=? score)%float = true ->
  In (_interpret_flesch score) (firstn 3 band_labels).
Proof.
  intros H. unfold _interpret_flesch.
  destruct (90 <=? score)%float; [vm_compute; auto|].
  destruct (80 <=? score)%float; [vm_compute; auto|].
  rewrite H. vm_compute. auto.
Qed.

(** X10. When the index calculator calls a text child friendly, the band
    it reports is one of the three easiest and the Flesch index it reports is
    at least 70. *)
Theorem child_friendly_is_easy (text : str) :
  dict_get (compute text) (u "is_child_friendly") = Some (VBool true) ->
  exists band flesch,
    dict_get (compute text) (u "flesch_level") = Some (VStr band)
    /\ In band (firstn 3 band_labels)
    /\ dict_get (compute text) (u "flesch_reading_ease")
       = Some (VFloat flesch)
    /\ fle 70 flesch.
Proof.
  unfold compute. destruct (negb _); [discriminate|]. cbv zeta.
  destruct (_ || _); [discriminate|].
  dict_lookup. intros [= H]. apply andb_true_iff in H as [H _].
  eexists _, _. split; [dict_lookup; reflexivity|].
  split; [now apply interpret_flesch_easy|].
  split; [dict_lookup; reflexivity|].
  change 70%float with (of_int 70).
  apply (py_round1_within 70 100); [vm_compute; reflexivity|exact H|].
  apply (clamp_max_min 0 100); reflexivity.
Qed.

End ReadabilityMore.

(** ** The surface and descriptive analyzers, further *)

Section SurfaceMore.
Context {U : UCD}.

(** X11. The surface analyzer files the three averages under plain keys
    only for a blank text: for any other text these keys are missing (the
    averages go under other keys). The character count is there in both
    cases and is the length of the text as given. *)
Theorem surface_average_keys (text k : str) :
  In k surface_blank_keys ->
  dict_get (TextComplexityMetrics.compute text) k
    = (if truthy (strip text) then None else Some (VFloat 0%float))
  /\ dict_get (TextComplexityMetrics.compute text) (u "char_count")
    = Some (VInt (len text)).
Proof.
  intros Hk. unfold TextComplexityMetrics.compute.
  destruct (truthy (strip text)); cbv zeta;
    [change (negb true) with false | change (negb false) with true];
    cbv iota; (split; [|dict_lookup; reflexivity]);
    destruct Hk as [<-|[<-|[<-|[]]]];
    first [dict_lookup; reflexivity
          |repeat (rewrite dict_get_next by (vm_compute; reflexivity));
           reflexivity].
Qed.

(** X12. A text that is not blank yet has no sentence (it holds only
    terminators and whitespace) gets zero counts, the three averages as the
    int 0, and the 0.3 hint. *)
Theorem surface_without_sentences (text : str) :
  truthy (strip text) = true ->
  TextComplexityMetrics._split_sentences text = [] ->
  map snd (TextComplexityMetrics.compute text)
  = [ VInt 0; VInt 0; VInt 0; VInt 0; VInt 0; VInt (len text);
      VFloat 0.3%float ].
Proof.
  intros Hnb Hs. unfold TextComplexityMetrics.compute. rewrite Hnb, Hs.
  vm_compute map. reflexivity.
Qed.

End SurfaceMore.

Lemma size_list_to_set_le (l : list str) :
  (size (list_to_set l : gset str) <= length l)%nat.
Proof.
  induction l as [|x l IH].
  - rewrite list_to_set_nil, size_empty. simpl. lia.
  - rewrite list_to_set_cons. simpl length.
    destruct (decide (x ∈ (list_to_set l : gset str))) as [Hin|Hout].
    + replace ({[x]} ∪ list_to_set l) with (list_to_set l : gset str)
        by set_solver.
      lia.
    + rewrite size_union by set_solver. rewrite size_singleton. lia.
Qed.

Lemma size_list_to_set_zero (l : list str) :
  size (list_to_set l : gset str) = 0%nat <-> l = [].
Proof.
  split; [|intros ->; apply size_empty].
  intros H. apply size_empty_inv in H. destruct l as [|x l]; [reflexivity|].
  exfalso. rewrite list_to_set_cons in H. set_solver.
Qed.

Section DescriptiveMore.
Context {U : UCD}.
Import DescriptiveTextMetrics.

(** X13. The descriptive analyzer never reports more unique words than word
    forms, and reports no unique word only when there is no word form. The
    count sits under [unique_words] for a blank text and under another key
    otherwise. *)
Theorem unique_words_bounded (text : str) :
  exists unique total : Z,
    dict_get (compute text) (unique_words_key (truthy (strip text)))
      = Some (VInt unique)
    /\ dict_get (compute text) (u "word_forms_total") = Some (VInt total)
    /\ 0 <= unique <= total
    /\ (unique = 0 <-> total = 0).
Proof.
  unfold compute. destruct (truthy (strip text)); cbv zeta;
    [change (negb true) with false | change (negb false) with true];
    cbv iota.
  - eexists _, _. split; [dict_lookup; reflexivity|].
    split; [dict_lookup; reflexivity|].
    pose proof (size_list_to_set_le (_extract_words text)).
    pose proof (size_list_to_set_zero (_extract_words text)) as Z0.
    unfold len. split; [lia|]. split; intros E.
    + assert (E' : size (list_to_set (_extract_words text) : gset str)
                   = 0%nat) by lia.
      apply Z0 in E'. now rewrite E'.
    + assert (E' : _extract_words text = [])
        by (destruct (_extract_words text); [reflexivity|discriminate]).
      apply Z0 in E'. lia.
  - exists 0, 0. split; [dict_lookup; reflexivity|].
    split; [dict_lookup; reflexivity|]. split; [lia|tauto].
Qed.

(** X14. The four syllable buckets the descriptive analyzer reports (one,
    two, three, and four or more syllables) add up to the number of word
    forms. *)
Theorem syllable_buckets_add_up (text : str) :
  exists mono di tri poly total : Z,
    dict_get (compute text) (u "monosyllabic_words") = Some (VInt mono)
    /\ dict_get (compute text) (u "disyllabic_words") = Some (VInt di)
    /\ dict_get (compute text) (u "trisyllabic_words") = Some (VInt tri)
    /\ dict_get (compute text) (u "polysyllabic_words") = Some (VInt poly)
    /\ dict_get (compute text) (u "word_forms_total") = Some (VInt total)
    /\ mono + di + tri + poly = total.
Proof.
  unfold compute. destruct (negb _); cbv zeta.
  - exists 0, 0, 0, 0, 0. repeat split; dict_lookup; reflexivity.
  - eexists _, _, _, _, _.
    split; [dict_lookup; reflexivity|]. split; [dict_lookup; reflexivity|].
    split; [dict_lookup; reflexivity|]. split; [dict_lookup; reflexivity|].
    split; [dict_lookup; reflexivity|].
    apply syllable_buckets_partition.
Qed.

Lemma rename_other (k : str) (v : value) (d : dict) :
  str_eqb k (unique_words_key true) = false ->
  rename_unique_words ((k, v) :: d) = (k, v) :: rename_unique_words d.
Proof.
  intros H. unfold rename_unique_words. cbn [map fst snd]. now rewrite H.
Qed.

Lemma key_true_self :
  str_eqb (unique_words_key true) (unique_words_key true) = true.
Proof. vm_compute. reflexivity. Qed.

Lemma rename_unique (v : value) (d : dict) :
  rename_unique_words ((unique_words_key true, v) :: d)
  = (unique_words_key false, v) :: rename_unique_words d.
Proof.
  unfold rename_unique_words. cbn [map fst snd].
  rewrite key_true_self. reflexivity.
Qed.

Lemma key_true_eq :
  u "Уникальные слова (unique_words)" = unique_words_key true.
Proof. vm_compute. reflexivity. Qed.

(** X15. The two definitions of [DescriptiveTextMetrics] compute the same
    entries in the same order; they differ in one key, the one of the unique
    words. *)
Theorem descriptive_copies_differ_in_one_key (text : str) :
  ReadabilityCopy.DescriptiveTextMetrics.compute text
  = rename_unique_words (compute text).
Proof.
  unfold compute, ReadabilityCopy.DescriptiveTextMetrics.compute.
  destruct (negb _); cbv zeta.
  - vm_compute. reflexivity.
  - rewrite rename_other by (vm_compute; reflexivity).
    rewrite key_true_eq, rename_unique.
    rewrite !rename_other by (vm_compute; reflexivity).
    reflexivity.
Qed.

End DescriptiveMore.

(** ** The morphological classifier, further *)

Lemma at_most_one_tag (x : str) (tags : list str) :
  NoDup tags ->
  sum (map (fun t => if str_eqb x t then 1 else 0) tags) <= 1.
Proof.
  induction 1 as [|t tags Hout _ IH]; [unfold sum; simpl; lia|].
  simpl map. rewrite sum_cons. destruct (str_eqb x t) eqn:E; [|lia].
  apply str_eqb_eq in E as <-.
  assert (Z0 : sum (map (fun t => if str_eqb x t then 1 else 0) tags) = 0);
    [|lia].
  clear IH. induction tags as [|t tags IH]; [reflexivity|].
  simpl map. rewrite sum_cons. rewrite not_elem_of_cons in Hout.
  destruct Hout as [Hne Hout]. rewrite (IH Hout).
  destruct (str_eqb x t) eqn:E; [|lia]. apply str_eqb_eq in E. congruence.
Qed.

(** Distinct tags count disjoint sets of words. *)
Lemma disjoint_tag_counts (tags : list str) (l : list str) :
  NoDup tags ->
  sum (map (fun t => count (fun x => str_eqb x t) l) tags) <= len l.
Proof.
  intros Hnd. induction l as [|x l IH].
  - assert (E : map (fun t => count (fun x : str => str_eqb x t) [])
                    tags = map (fun _ => 0) tags) by reflexivity.
    rewrite E. clear. induction tags; [reflexivity|].
    simpl map. rewrite sum_cons. unfold len in *. simpl in *. lia.
  - assert (E : sum (map (fun t => count (fun y => str_eqb y t) (x :: l)) tags)
                = sum (map (fun t => if str_eqb x t then 1 else 0) tags)
                  + sum (map (fun t => count (fun y => str_eqb y t) l) tags)).
    { clear. induction tags as [|t tags IH]; [reflexivity|].
      simpl map. rewrite !sum_cons, IH. unfold count, len. simpl.
      destruct (str_eqb x t); simpl length; lia. }
    rewrite E. pose proof (at_most_one_tag x tags Hnd).
    unfold len in *. simpl length. lia.
Qed.

Section ClassifierMore.
Context {U : UCD} {morph : MorphoMetrics.MorphAnalyzer}.
Import MorphoMetrics.
Variable cache_size : Z.

Lemma get_pos_all_length (ws : list str) (c : gmap str str) (l : list str) :
  fst (get_pos_all cache_size ws c) = Ok l -> length l = length ws.
Proof.
  revert c l. induction ws as [|w ws IH]; intros c l; simpl.
  - intros [= <-]. reflexivity.
  - unfold bindM. destruct (_get_pos cache_size w c) as [[pos|e] c1];
      [|discriminate].
    specialize (IH c1).
    destruct (get_pos_all cache_size ws c1) as [[rest|e] c2];
      [|discriminate].
    intros [= <-]. simpl. f_equal. now apply IH.
Qed.

(** What [compute] returns when it returns: the literal of its last line,
    over the tags of the words. *)
Lemma compute_returns (text : str) (c : gmap str str) (d : dict) :
  fst (compute cache_size text c) = Ok d ->
  d = _empty_result /\ _extract_words text = []
  \/ exists pos_list vpr dim n_lemmas,
       length pos_list = length (_extract_words text)
       /\ _compute_perfective_verb_ratio (_extract_words text) = Ok vpr
       /\ _count_diminutives (_extract_words text) = Ok dim
       /\ unique_lemmas (_extract_words text) = Ok n_lemmas
       /\ d = [ (u "nouns", VInt (counter_get (Counter pos_list) (u "NOUN")));
                (u "verbs", VInt (counter_get (Counter pos_list) (u "VERB")));
                (u "adjectives",
                 VInt (counter_get (Counter pos_list) (u "ADJF")));
                (u "pronouns",
                 VInt (counter_get (Counter pos_list) (u "NPRO")
                       + counter_get (Counter pos_list) (u "ADJPRO")
                       + counter_get (Counter pos_list) (u "PRTFPRO")));
                (u "adverbs",
                 VInt (counter_get (Counter pos_list) (u "ADVB")));
                (u "prepositions",
                 VInt (counter_get (Counter pos_list) (u "PREP")));
                (u "conjunctions",
                 VInt (counter_get (Counter pos_list) (u "CONJ")));
                (u "particles",
                 VInt (counter_get (Counter pos_list) (u "PRCL")));
                (u "interjections",
                 VInt (counter_get (Counter pos_list) (u "INTJ")));
                (u "noun_ratio",
                 VFloat (ratio (counter_get (Counter pos_list) (u "NOUN"))
                               (len (_extract_words text))));
                (u "verb_ratio",
                 VFloat (ratio (counter_get (Counter pos_list) (u "VERB"))
                               (len (_extract_words text))));
                (u "adj_ratio",
                 VFloat (ratio (counter_get (Counter pos_list) (u "ADJF"))
                               (len (_extract_words text))));
                (u "verb_perfective_ratio", VFloat vpr);
                (u "diminutive_noun_count", VInt dim);
                (u "dialogue_markers", VInt (_count_dialogue_markers text));
                (u "total_words", VInt (len (_extract_words text)));
                (u "unique_lemmas", VInt n_lemmas) ].
Proof.
  unfold compute. destruct (_extract_words text) as [|w ws] eqn:Ew.
  { intros [= <-]. now left. }
  change (negb (truthy (w :: ws))) with false. cbv iota.
  unfold bindM at 1.
  pose proof (get_pos_all_length (w :: ws) c) as Hl.
  destruct (get_pos_all cache_size (w :: ws) c) as [[pos_list|e] c1];
    [|discriminate].
  unfold bindM, lift, ret.
  destruct (_compute_perfective_verb_ratio (w :: ws)) as [r|];
    [|discriminate].
  destruct (_count_diminutives (w :: ws)) as [dn|]; [|discriminate].
  destruct (unique_lemmas (w :: ws)) as [nl|]; [|discriminate].
  cbn [fst]. intros [= <-]. right. exists pos_list, r, dn, nl.
  repeat split; auto.
Qed.

(** X16. When [compute] returns, its result has the seventeen keys of the
    empty result, in the same order: the keys the demonstration script reads
    are always there. *)
Theorem classifier_keys (text : str) (c : gmap str str) (d : dict) :
  fst (compute cache_size text c) = Ok d -> keys d = keys _empty_result.
Proof.
  intros H. apply compute_returns in H
    as [[-> _]|(pl & r & dn & nl & _ & _ & _ & _ & ->)]; reflexivity.
Qed.

(** X17. When [compute] returns, the nine part-of-speech counts are not
    negative and together do not exceed the number of words: they count
    disjoint sets of words. *)
Theorem pos_counts_within_total (text : str) (c : gmap str str) (d : dict) :
  fst (compute cache_size text c) = Ok d ->
  exists counts total,
    map (dict_get d) pos_count_keys = map (fun n => Some (VInt n)) counts
    /\ dict_get d (u "total_words") = Some (VInt total)
    /\ Forall (fun n => 0 <= n) counts
    /\ sum counts <= total
    /\ total = len (_extract_words text).
Proof.
  intros H. apply compute_returns in H
    as [[-> E]|(pl & r & dn & nl & Hl & _ & _ & _ & ->)].
  { exists [0; 0; 0; 0; 0; 0; 0; 0; 0], 0. rewrite E.
    split; [vm_compute; reflexivity|]. split; [vm_compute; reflexivity|].
    split; [repeat constructor; lia|].
    split; [vm_compute; discriminate|reflexivity]. }
  set (tags := [u "NOUN"; u "VERB"; u "ADJF"; u "NPRO"; u "ADJPRO";
                u "PRTFPRO"; u "ADVB"; u "PREP"; u "CONJ"; u "PRCL";
                u "INTJ"]).
  assert (Hnd : NoDup tags)
    by (apply (bool_decide_unpack _); vm_compute; exact I).
  pose proof (disjoint_tag_counts tags pl Hnd) as S.
  assert (Hpos : forall t, 0 <= counter_get (Counter pl) t).
  { intros t. rewrite counter_get_Counter. apply count_bounds. }
  eexists [_; _; _; _; _; _; _; _; _], _.
  split.
  { unfold pos_count_keys. cbn [map].
    repeat (f_equal; [dict_lookup; reflexivity|]). reflexivity. }
  split; [dict_lookup; reflexivity|].
  split; [repeat constructor; try apply Hpos;
          repeat apply Z.add_nonneg_nonneg; apply Hpos|].
  split; [|reflexivity].
  unfold tags in S. cbn [map] in S. rewrite !sum_cons in S.
  rewrite <- !counter_get_Counter in S.
  rewrite !sum_cons. unfold len in *. rewrite <- Hl.
  change (sum []) with 0 in *. lia.
Qed.

End ClassifierMore.

Section ClassifierEdges.
Context {U : UCD} {morph : MorphoMetrics.MorphAnalyzer}.
Import MorphoMetrics.
Variable cache_size : Z.

Lemma In_app_middle {A} (x : A) (pre m post : list A) :
  In x m -> In x (pre ++ m ++ post).
Proof. intros H. apply in_or_app. right. apply in_or_app. now left. Qed.

(** X18. On a text that has no letter of [а-яё] once lower-cased, [compute]
    returns the all-zero result (ints under every key, the ratios included)
    without asking the analyzer and leaves the cache as it is. *)
Theorem no_cyrillic_no_lookup (text : str) (c : gmap str str) :
  Forall (fun ch => cyr_lower ch = false) (lower text) ->
  compute cache_size text c = (Ok _empty_result, c)
  /\ Forall (fun kv => snd kv = VInt 0) _empty_result.
Proof.
  intros H. split; [|vm_compute; repeat constructor].
  unfold compute. destruct (_extract_words text) as [|w ws] eqn:E;
    [reflexivity|].
  exfalso.
  destruct (classifier_word_shape text w)
    as (Hne & Hall & pre & post & Hsub).
  { rewrite E. now left. }
  destruct w as [|ch w]; [congruence|].
  apply List.Forall_cons_iff in Hall as [Hch _].
  rewrite List.Forall_forall in H.
  rewrite (H ch) in Hch; [discriminate|].
  rewrite Hsub. apply In_app_middle. now left.
Qed.

(** Keys of the cache: what the lookups of [compute] can add. *)
Lemma get_pos_all_keys (Q : str -> Prop) (ws : list str) :
  forall c : gmap str str,
    Forall Q ws ->
    (forall k pos, c !! k = Some pos -> Q k) ->
    forall k pos,
      snd (get_pos_all cache_size ws c) !! k = Some pos -> Q k.
Proof.
  induction ws as [|w ws IH]; intros c Hws Hc; [exact Hc|].
  apply List.Forall_cons_iff in Hws as [Hw Hws]. simpl. unfold bindM.
  assert (Hc1 : forall k pos,
            snd (_get_pos cache_size w c) !! k = Some pos -> Q k).
  { destruct (get_pos_cache cache_size w c) as [->|(p & _ & _ & _ & ->)];
      [exact Hc|].
    intros k pos. rewrite lookup_insert.
    destruct (decide (w = k)) as [<-|_]; [auto|apply Hc]. }
  destruct (_get_pos cache_size w c) as [[pos|e] c1]; simpl in Hc1;
    [|exact Hc1].
  specialize (IH c1 Hws Hc1).
  destruct (get_pos_all cache_size ws c1) as [[rest|e] c2]; exact IH.
Qed.

Lemma run_compute_keys (Q : str -> Prop) (calls : list call) :
  (forall text w, In w (_extract_words text) -> Q w) ->
  forallb is_compute calls = true ->
  forall c : gmap str str,
    (forall k pos, c !! k = Some pos -> Q k) ->
    forall k pos, run cache_size calls c !! k = Some pos -> Q k.
Proof.
  intros HQ. unfold run.
  induction calls as [|call calls IH]; intros Hcalls c Hc; [exact Hc|].
  simpl in Hcalls. apply andb_true_iff in Hcalls as [Hcall Hcalls].
  simpl. apply (IH Hcalls).
  destruct call as [w|text]; [discriminate Hcall|]. simpl.
  rewrite compute_cache. apply get_pos_all_keys; [|exact Hc].
  apply List.Forall_forall. apply HQ.
Qed.

(** X19. On an instance used through [compute] only, every cache entry is a
    non-empty word of letters [а-яё] together with the tag the analyzer gives
    that word. *)
Theorem cache_holds_cyrillic_words (calls : list call) (k pos : str) :
  forallb is_compute calls = true ->
  run cache_size calls init_cache !! k = Some pos ->
  k <> [] /\ Forall (fun ch => cyr_lower ch = true) k /\ pos_of k = Ok pos.
Proof.
  intros Hcalls Hk.
  assert (Q : k <> [] /\ Forall (fun ch => cyr_lower ch = true) k).
  { apply (run_compute_keys
             (fun k => k <> [] /\ Forall (fun ch => cyr_lower ch = true) k)
             calls) with (c := init_cache) (pos := pos); auto.
    - intros text w Hw.
      destruct (classifier_word_shape text w Hw) as (? & ? & _). auto.
    - intros k' p'. unfold init_cache. now rewrite lookup_empty. }
  split; [apply Q|]. split; [apply Q|].
  now apply (run_cache_ok cache_size calls).
Qed.

(** X20. A lookup that the analyzer answers while the cache has room is
    answered from the cache the next time: the same tag, and the cache is
    left as it is. *)
Theorem lookup_then_hit (w pos : str) (c : gmap str str) :
  w <> [] ->
  Z.of_nat (size c) < cache_size ->
  fst (_get_pos cache_size w c) = Ok pos ->
  let c' := snd (_get_pos cache_size w c) in
  c' !! w = Some pos /\ _get_pos cache_size w c' = (Ok pos, c').
Proof.
  intros Hw Hroom Hpos c'.
  assert (Hin : c' !! w = Some pos).
  { unfold c'. destruct (get_pos_cases cache_size w c)
      as [[-> _]|[(p & Hc & E)|[(e & _ & _ & _ & E)|(ps & _ & Hc & _ & E)]]];
      [congruence|..]; rewrite E in Hpos |- *; simpl in *.
    - congruence.
    - discriminate.
    - injection Hpos as <-.
      destruct (Z.ltb_spec (Z.of_nat (size c)) cache_size); [|lia].
      apply lookup_insert_eq. }
  split; [exact Hin|].
  destruct (get_pos_cases cache_size w c')
    as [[-> _]|[(p & Hc & E)|[(e & _ & Hc & _ & _)|(ps & _ & Hc & _ & _)]]];
    congruence.
Qed.

End ClassifierEdges.

(** ** Dialogue markers, diminutives, lemmas, perfective verbs *)

Lemma count_app {A} (p : A -> bool) (l1 l2 : list A) :
  count p (l1 ++ l2) = count p l1 + count p l2.
Proof.
  unfold count, len. rewrite List.filter_app, length_app. lia.
Qed.

Section Markers.
Context {U : UCD}.

(** A pattern whose every match holds a character of [q] matches at most as
    often as [q] occurs. *)
Lemma findall_from_count (q : codepoint -> bool) (r : regex) :
  (forall m, lang r m -> 1 <= count q m) ->
  forall fuel prev s, len (findall_from fuel r prev s) <= count q s.
Proof.
  intros Hq. induction fuel as [|fuel IH]; intros prev s; simpl.
  { pose proof (count_bounds q s). unfold len in *. simpl. lia. }
  destruct (match_here r prev s) as [[[|c m] rest]|] eqn:E.
  - apply match_here_sound in E as [_ L]. apply Hq in L.
    unfold count, len in L. simpl in L. lia.
  - apply match_here_sound in E as [-> L]. apply Hq in L.
    rewrite count_app. specialize (IH (Some (List.last m c)) rest).
    unfold len in *. simpl length. lia.
  - destruct s as [|c s'].
    + pose proof (count_bounds q []). unfold len in *. simpl. lia.
    + specialize (IH (Some c) s').
      change (c :: s') with ([c] ++ s'). rewrite count_app.
      pose proof (count_bounds q [c]). lia.
Qed.

Lemma count_singleton {A} (q : A -> bool) (x : A) :
  q x = true -> count q [x] = 1.
Proof. intros H. unfold count, len. simpl. now rewrite H. Qed.

Lemma quoted_has_guillemet (m : str) :
  lang MorphoMetrics.quoted_re m -> 1 <= count (fun c => (c =? 171)%N) m.
Proof.
  intros L. inversion L as [| | |? ? m1 m2 L1 L2| |]; subst.
  apply lang_set_inv in L1 as (c & -> & Hc). apply N.eqb_eq in Hc as <-.
  rewrite count_app, count_singleton by reflexivity.
  pose proof (count_bounds (fun c => (c =? 171)%N) m2). lia.
Qed.

Lemma dash_has_dash (m : str) :
  lang MorphoMetrics.dash_re m -> 1 <= count (fun c => (c =? 8212)%N) m.
Proof.
  intros L. inversion L as [| | |? ? m1 m2 L1 L2| |]; subst.
  inversion L2 as [| | |? ? m3 m4 L3 L4| |]; subst.
  apply lang_set_inv in L4 as (c & -> & Hc). apply N.eqb_eq in Hc as <-.
  rewrite !count_app, count_singleton by reflexivity.
  pose proof (count_bounds (fun c => (c =? 8212)%N) m1).
  pose proof (count_bounds (fun c => (c =? 8212)%N) m3). lia.
Qed.

(** X21. The dialogue markers are at most as many as the opening guillemets
    and the em dashes of the text together; a text with neither has none. *)
Theorem dialogue_markers_bounded (text : str) :
  0 <= MorphoMetrics._count_dialogue_markers text
    <= count (fun c => (c =? 171)%N) text
       + count (fun c => (c =? 8212)%N) text.
Proof.
  unfold MorphoMetrics._count_dialogue_markers, findall.
  pose proof (findall_from_count (fun c : N => (c =? 171)%N)
                MorphoMetrics.quoted_re quoted_has_guillemet
                (S (length text)) None text) as Hq.
  pose proof (findall_from_count (fun c : N => (c =? 8212)%N)
                MorphoMetrics.dash_re dash_has_dash
                (S (length text)) None text) as Hd.
  cbv zeta. rewrite Z.add_0_l. split.
  - unfold len. lia.
  - apply Z.add_le_mono; [exact Hq|exact Hd].
Qed.

End Markers.

Lemma dialogue_markers_nonneg {U : UCD} (text : str) :
  0 <= MorphoMetrics._count_dialogue_markers text.
Proof. unfold MorphoMetrics._count_dialogue_markers, len. lia. Qed.

Section ClassifierRanges.
Context {U : UCD} {morph : MorphoMetrics.MorphAnalyzer}.
Import MorphoMetrics.
Variable cache_size : Z.

Lemma perfective_loop_counts (ws : list str) :
  forall a b p v,
    perfective_loop ws a b = Ok (p, v) ->
    a <= p /\ p - a <= v - b /\ v - b <= len ws
    /\ (no_verb_on_top ws = true -> p = a /\ v = b).
Proof.
  induction ws as [|w ws IH]; intros a b p v; simpl.
  { intros [= <- <-]. unfold len. simpl. repeat split; lia. }
  assert (Hlen : len (w :: ws) = 1 + len ws)
    by (unfold len; simpl length; lia).
  rewrite Hlen.
  destruct (parse w) as [[|c cs]|e]; simpl; [| |discriminate].
  - intros H. apply IH in H as (? & ? & ? & Hn). repeat split; try lia;
      apply Hn; assumption.
  - destruct (is_verb_or_infn (POS (tag c))); simpl.
    + destruct (aspect (tag c)) as [asp|]; simpl; [|discriminate].
      destruct (contains asp (u "perf")); intros H;
        apply IH in H as (? & ? & ? & _); repeat split; try lia;
        discriminate.
    + intros H. apply IH in H as (? & ? & ? & Hn). repeat split; try lia;
        apply Hn; assumption.
Qed.

(** X22. When [_compute_perfective_verb_ratio] returns, it has counted no
    more perfective verbs than verbs and no more verbs than words; and when
    no word has a verb or infinitive on top, it returns 0.0: the division is
    guarded. *)
Theorem perfective_ratio_guarded (words : list str) (r : float) :
  _compute_perfective_verb_ratio words = Ok r ->
  exists p v,
    perfective_loop words 0 0 = Ok (p, v)
    /\ 0 <= p <= v /\ v <= len words
    /\ r = (if v =? 0 then 0.0%float else py_round (truediv p v) 3)
    /\ (no_verb_on_top words = true -> r = 0.0%float).
Proof.
  unfold _compute_perfective_verb_ratio.
  destruct (perfective_loop words 0 0) as [[p v]|e] eqn:E; [|discriminate].
  simpl. intros [= <-]. exists p, v.
  apply perfective_loop_counts in E as (? & ? & ? & Hn).
  split; [reflexivity|]. split; [lia|]. split; [lia|].
  split; [reflexivity|]. intros Hnv. destruct (Hn Hnv) as [_ ->].
  reflexivity.
Qed.

Lemma count_diminutives_range (ws : list str) :
  forall n r, _count_diminutives_from ws n = Ok r -> n <= r <= n + len ws.
Proof.
  induction ws as [|w ws IH]; intros n r; simpl.
  { intros [= <-]. unfold len. simpl. lia. }
  assert (Hlen : len (w :: ws) = 1 + len ws)
    by (unfold len; simpl length; lia).
  rewrite Hlen. destruct (norm_or_word w) as [norm|e]; [|discriminate].
  simpl. match goal with |- context [if ?b then _ else _] => destruct b end;
    intros H; apply IH in H; lia.
Qed.

Lemma lemmas_length (ws : list str) :
  forall ls, lemmas ws = Ok ls -> (length ls <= length ws)%nat.
Proof.
  induction ws as [|w ws IH]; intros ls; simpl.
  { intros [= <-]. simpl. lia. }
  destruct (parse w) as [cond|e]; [|discriminate]. simpl.
  destruct (truthy cond).
  - destruct (item0 cond) as [p|e]; [|discriminate]. simpl.
    destruct (lemmas ws) as [rest|e]; [|discriminate]. simpl.
    intros [= <-]. specialize (IH rest eq_refl). simpl. lia.
  - intros H. apply IH in H. lia.
Qed.

(** X23. When [compute] returns, the diminutive count and the number of
    unique lemmas lie between 0 and the number of words, and the dialogue
    markers are not negative. *)
Theorem classifier_counts_in_range (text : str) (c : gmap str str)
    (d : dict) :
  fst (compute cache_size text c) = Ok d ->
  exists dim n_lemmas markers total,
    dict_get d (u "diminutive_noun_count") = Some (VInt dim)
    /\ dict_get d (u "unique_lemmas") = Some (VInt n_lemmas)
    /\ dict_get d (u "dialogue_markers") = Some (VInt markers)
    /\ dict_get d (u "total_words") = Some (VInt total)
    /\ 0 <= dim <= total /\ 0 <= n_lemmas <= total
    /\ 0 <= markers.
Proof.
  intros H. apply compute_returns in H
    as [[-> E]|(pl & r & dn & nl & Hl & _ & Hd & Hu & ->)].
  { exists 0, 0, 0, 0. repeat split; try (vm_compute; reflexivity); lia. }
  eexists _, _, _, _.
  split; [dict_lookup; reflexivity|]. split; [dict_lookup; reflexivity|].
  split; [dict_lookup; reflexivity|]. split; [dict_lookup; reflexivity|].
  apply count_diminutives_range in Hd.
  unfold unique_lemmas in Hu.
  destruct (lemmas (_extract_words text)) as [ls|e] eqn:El; [|discriminate].
  simpl in Hu. injection Hu as <-. apply lemmas_length in El.
  pose proof (size_list_to_set_le ls).
  pose proof (dialogue_markers_nonneg text).
  unfold len in *. repeat split; lia.
Qed.

End ClassifierRanges.

(** ** [re.sub], [str.split] and dict updates *)

Section SubFacts.
Context {U : UCD}.

Lemma match_here_set (p : codepoint -> bool) prev c s :
  match_here (RSet p) prev (c :: s)
  = if p c then Some ([c], s) else None.
Proof.
  unfold match_here. simpl rmatch. destruct (p c); [|reflexivity].
  replace (length (c :: s) - length s)%nat with 1%nat by (simpl; lia).
  reflexivity.
Qed.

(** Substituting at the characters of a set works character by
    character. *)
Lemma sub_from_set (p : codepoint -> bool) (repl : str) (fuel : nat) :
  forall prev s,
    (length s < fuel)%nat ->
    sub_from fuel (RSet p) repl prev s
    = flat_map (fun c => if p c then repl else [c]) s.
Proof.
  induction fuel as [|fuel IH]; intros prev s Hf; [lia|].
  destruct s as [|c s]; [reflexivity|]. cbn [sub_from flat_map].
  rewrite match_here_set. simpl in Hf.
  destruct (p c); cbn [List.last]; rewrite IH by lia; reflexivity.
Qed.

(** Substituting for the runs of a set leaves the replacement and the
    characters outside the set. *)
Lemma sub_from_plus_chars (p : codepoint -> bool) (repl : str) (fuel : nat) :
  forall prev s,
    (length s < fuel)%nat ->
    Forall (fun c => In c repl \/ p c = false)
           (sub_from fuel (RPlus (RSet p)) repl prev s).
Proof.
  induction fuel as [|fuel IH]; intros prev s Hf; [lia|].
  destruct s as [|c s]; [constructor|]. cbn [sub_from]. simpl in Hf.
  destruct (p c) eqn:Hc.
  - destruct (match_here_plus_set p prev c s Hc) as (m & rest & -> & Hs & _).
    apply List.Forall_app. split.
    + apply List.Forall_forall. auto.
    + apply IH. apply (f_equal (@length _)) in Hs.
      rewrite length_app in Hs. simpl in Hs. lia.
  - rewrite (match_here_plus_set_fail p prev c s Hc).
    constructor; [now right|]. apply IH. lia.
Qed.

End SubFacts.

Lemma split_ws_from_spec (s : str) :
  forall word,
    Forall (fun c => isspace c = false) word ->
    Forall (fun w => w <> [] /\ Forall (fun c => isspace c = false) w)
           (split_ws_from s word)
    /\ concat (split_ws_from s word)
       = word ++ List.filter (fun c => negb (isspace c)) s.
Proof.
  induction s as [|c s IH]; intros word Hw; simpl.
  - destruct word; simpl; [split; [constructor|reflexivity]|].
    split; [constructor; [split; [discriminate|exact Hw]|constructor]|].
    now rewrite !app_nil_r.
  - destruct (isspace c) eqn:Hc; simpl.
    + destruct (IH [] ltac:(constructor)) as [F E].
      destruct word as [|a word]; simpl; [split; [exact F|exact E]|].
      split; [constructor; [split; [discriminate|exact Hw]|exact F]|].
      rewrite E. reflexivity.
    + destruct (IH (word ++ [c])) as [F E].
      { apply List.Forall_app. split; [exact Hw|now repeat constructor]. }
      split; [exact F|]. rewrite E. now rewrite <- app_assoc.
Qed.

Lemma str_eqb_refl (a : str) : str_eqb a a = true.
Proof. now apply str_eqb_eq. Qed.

Lemma str_eqb_neq (a b : str) : a <> b -> str_eqb a b = false.
Proof.
  intros H. destruct (str_eqb a b) eqn:E; [|reflexivity].
  apply str_eqb_eq in E. congruence.
Qed.

(** Reading after writing: the key written answers with the new value,
    every other key as before. *)
Lemma dict_get_set (d : dict) (k k' : str) (v : value) :
  dict_get (dict_set d k v) k'
  = if str_eqb k k' then Some v else dict_get d k'.
Proof.
  induction d as [|[k0 x] d IH]; simpl.
  - destruct (str_eqb k k'); reflexivity.
  - destruct (str_eqb k0 k) eqn:E0; simpl.
    + apply str_eqb_eq in E0 as ->. destruct (str_eqb k k'); reflexivity.
    + rewrite IH. destruct (str_eqb k0 k') eqn:E1; [|reflexivity].
      apply str_eqb_eq in E1 as ->. now rewrite (str_eqb_neq k k')
        by (intros ->; rewrite str_eqb_refl in E0; discriminate).
Qed.

Lemma dict_get_app (l1 l2 : dict) (k : str) :
  dict_get (l1 ++ l2) k
  = match dict_get l1 k with Some v => Some v | None => dict_get l2 k end.
Proof.
  induction l1 as [|[k0 x] l1 IH]; simpl; [reflexivity|].
  destruct (str_eqb k0 k); [reflexivity|exact IH].
Qed.

(** After [{**d, **entries}] a key answers with its last entry, or as in
    [d] when no entry has it. *)
Lemma dict_get_update (entries : list (str * value)) :
  forall (d : dict) (k : str),
    dict_get (dict_update d entries) k
    = match dict_get (rev entries) k with
      | Some v => Some v
      | None => dict_get d k
      end.
Proof.
  unfold dict_update.
  induction entries as [|[k0 v0] entries IH]; intros d k; simpl;
    [reflexivity|].
  rewrite IH, dict_get_app, dict_get_set. simpl.
  destruct (dict_get (rev entries) k); [reflexivity|].
  destruct (str_eqb k0 k); reflexivity.
Qed.

Lemma dict_get_absent (d : dict) (k : str) :
  ~ In k (keys d) -> dict_get d k = None.
Proof.
  induction d as [|[k0 x] d IH]; simpl; [reflexivity|].
  intros H. rewrite str_eqb_neq by (intros ->; apply H; now left).
  apply IH. intros Hin. apply H. now right.
Qed.

(** ** Preprocessing and [_normalize_word] *)

Section PreprocessingFacts.
Context {U : UCD}.
Import Preprocessing.

Lemma u_space : u " " = [32%N].
Proof. reflexivity. Qed.

Lemma dropped_space : dropped 32%N = false.
Proof.
  unfold dropped. change (isspace 32%N) with true.
  now rewrite orb_true_r.
Qed.

(** X24. What [clean_text] returns has no whitespace at either end, holds
    only word characters, spaces and the punctuation the pattern keeps, and
    has the space as its only whitespace character; anything but a [str]
    cleans to the empty string. *)
Theorem clean_text_output (text : value) :
  stripped (clean_text text)
  /\ Forall (fun c => dropped c = false) (clean_text text)
  /\ Forall (fun c => isspace c = true -> c = 32%N) (clean_text text)
  /\ ((forall s, text <> VStr s) -> clean_text text = []).
Proof.
  destruct text as [z|f|s|b|d];
    try (split; [exact I|]; split; [constructor|]; split; [constructor|];
         reflexivity).
  unfold clean_text. split; [apply strip_stripped|].
  assert (H1 : Forall (fun c => isspace c = true -> c = 32%N)
                      (sub (RPlus (RSet isspace)) (u " ") s)).
  { unfold sub. eapply List.Forall_impl;
      [|apply sub_from_plus_chars; lia].
    intros c [Hin|Hc] Hs; [|congruence].
    rewrite u_space in Hin. destruct Hin as [<-|[]]. reflexivity. }
  set (t := sub _ _ s) in *. clearbody t.
  unfold sub. rewrite sub_from_set by lia.
  assert (H2 : Forall (fun c => dropped c = false
                               /\ (isspace c = true -> c = 32%N))
                      (flat_map (fun c => if dropped c then u " " else [c])
                                t)).
  { induction H1 as [|c t Hc _ IH]; simpl; [constructor|].
    apply List.Forall_app. split; [|exact IH].
    destruct (dropped c) eqn:Hd.
    - rewrite u_space. repeat constructor. apply dropped_space.
    - repeat constructor; assumption. }
  split; [|split].
  - apply strip_Forall. eapply List.Forall_impl; [|exact H2]. now intros c [].
  - apply strip_Forall. eapply List.Forall_impl; [|exact H2]. now intros c [].
  - intros H. now destruct (H s).
Qed.

Lemma sum_map_len_concat (ws : list str) :
  sum (map len ws) = len (concat ws).
Proof.
  induction ws as [|w ws IH]; [reflexivity|].
  cbn [map concat]. rewrite sum_cons, IH. unfold len.
  rewrite length_app. lia.
Qed.

Lemma nonempty_words_le (ws : list str) :
  Forall (fun w => w <> [] /\ Forall (fun c => isspace c = false) w) ws ->
  len ws <= sum (map len ws).
Proof.
  induction 1 as [|w ws [Hne _] _ IH]; [reflexivity|].
  cbn [map]. rewrite sum_cons. unfold len in *.
  destruct w; [congruence|]. simpl length. lia.
Qed.

(** X25. The words [compute_text_features] counts are non-empty and free
    of whitespace, and together they are the text without its whitespace: the
    word lengths add up to the number of characters that are no whitespace,
    and [word_count] is at most [char_count]. [sentence_count] is the number
    of sentences the analyzers find in the same text. *)
Theorem text_features_counts (text : str) :
  Forall (fun w => w <> [] /\ Forall (fun c => isspace c = false) w)
         (split_ws text)
  /\ concat (split_ws text) = List.filter (fun c => negb (isspace c)) text
  /\ sum (map len (split_ws text)) = count (fun c => negb (isspace c)) text
  /\ dict_get (compute_text_features text) (u "word_count")
     = Some (VInt (len (split_ws text)))
  /\ dict_get (compute_text_features text) (u "char_count")
     = Some (VInt (len text))
  /\ len (split_ws text) <= len text
  /\ dict_get (compute_text_features text) (u "sentence_count")
     = Some (VInt (len (TextComplexityMetrics._split_sentences text))).
Proof.
  destruct (split_ws_from_spec text [] ltac:(constructor)) as [F E].
  fold (split_ws text) in F, E. simpl in E.
  assert (S : sum (map len (split_ws text))
              = count (fun c => negb (isspace c)) text)
    by (rewrite sum_map_len_concat, E; reflexivity).
  split; [exact F|]. split; [exact E|]. split; [exact S|].
  unfold compute_text_features. cbv zeta.
  split; [dict_lookup; reflexivity|]. split; [dict_lookup; reflexivity|].
  split.
  - pose proof (nonempty_words_le _ F).
    pose proof (count_bounds (fun c => negb (isspace c)) text). lia.
  - dict_lookup. unfold TextComplexityMetrics._split_sentences, len.
    rewrite length_map. reflexivity.
Qed.

Lemma features_getint (text : str) :
  getint (compute_text_features text) (u "word_count")
  = Some (len (split_ws text))
  /\ getint (compute_text_features text) (u "is_too_short")
     = Some (int_of_bool (len (split_ws text) <? 3))
  /\ getint (compute_text_features text) (u "is_too_long")
     = Some (int_of_bool (512 <? len (split_ws text))).
Proof.
  unfold getint, compute_text_features. cbv zeta.
  split; [|split]; dict_lookup; reflexivity.
Qed.

Lemma filter_by_quality_features (text : str) (min_words max_words : Z) :
  filter_by_quality (compute_text_features text) min_words max_words
  = Some ((min_words <=? len (split_ws text))
          && (len (split_ws text) <=? max_words)
          && (3 <=? len (split_ws text))).
Proof.
  destruct (features_getint text) as (Hw & Hs & _).
  unfold filter_by_quality. rewrite Hw. cbn [mbind option_bind].
  destruct ((min_words <=? _) && (_ <=? max_words)); [|reflexivity].
  rewrite Hs. cbn [mbind option_bind andb]. f_equal.
  destruct (Z.ltb_spec (len (split_ws text)) 3) as [H|H]; simpl; lia.
Qed.

(** X26. On the features of a text [filter_by_quality] finds both keys it
    reads and accepts exactly the texts whose word count lies between the two
    bounds and is at least 3; with a lower bound of 3 or more (5 by default)
    the test of [is_too_short] changes nothing. *)
Theorem filter_by_quality_on_features (text : str)
    (min_words max_words : Z) :
  filter_by_quality (compute_text_features text) min_words max_words
  = Some ((min_words <=? len (split_ws text))
          && (len (split_ws text) <=? max_words)
          && (3 <=? len (split_ws text)))
  /\ (3 <= min_words ->
      filter_by_quality (compute_text_features text) min_words max_words
      = Some ((min_words <=? len (split_ws text))
              && (len (split_ws text) <=? max_words))).
Proof.
  split; [apply filter_by_quality_features|].
  intros H. rewrite filter_by_quality_features. f_equal.
  destruct (Z.leb_spec min_words (len (split_ws text))) as [H1|H1];
    [|reflexivity].
  rewrite (proj2 (Z.leb_le 3 _)) by lia. now rewrite andb_true_r.
Qed.

Lemma keys_added_entries (cleaned : str) (h : float) (valid : bool) :
  keys (added_entries cleaned (compute_text_features cleaned) h valid)
  = added_keys.
Proof. vm_compute. reflexivity. Qed.

Lemma preprocess_example_unfold (example : dict) (text_field : str) :
  let cleaned :=
    clean_text (default (VStr []) (dict_get example text_field)) in
  let wc := len (split_ws cleaned) in
  preprocess_example example text_field
  = Some (dict_update example
            (added_entries cleaned (compute_text_features cleaned)
               (if wc <? 3 then 0.3%float
                else if 512 <? wc then 0.6%float else 1.0%float)
               ((5 <=? wc) && (wc <=? 512)))).
Proof.
  intros cleaned wc. unfold preprocess_example. fold cleaned.
  destruct (features_getint cleaned) as (_ & Hs & Hl).
  rewrite Hs, Hl, (filter_by_quality_features cleaned 5 512). fold wc.
  cbn [mbind option_bind].
  destruct (Z.ltb_spec wc 3) as [H3|H3]; cbn [int_of_bool Z.eqb negb].
  - cbn [mbind option_bind]. do 3 f_equal.
    rewrite (proj2 (Z.leb_gt 5 wc)) by lia. reflexivity.
  - destruct (512 <? wc) eqn:H5;
      cbn [int_of_bool Z.eqb negb mbind option_bind]; do 3 f_equal; rewrite (proj2 (Z.leb_le 3 wc)) by lia;
      now rewrite andb_true_r.
Qed.

(** X27. [preprocess_example] returns for every example, with or without
    the text field. Whatever the example held under these keys, the result
    has the cleaned text, its word count, the hint 0.3 below 3 words, 0.6
    above 512 and 1.0 otherwise, and the validity flag, which is set from 5
    to 512 words; so an example that is valid for training has the hint
    1.0. *)
Theorem preprocess_example_entries (example : dict) (text_field : str) :
  let cleaned :=
    clean_text (default (VStr []) (dict_get example text_field)) in
  let wc := len (split_ws cleaned) in
  exists d,
    preprocess_example example text_field = Some d
    /\ dict_get d (u "text_clean") = Some (VStr cleaned)
    /\ dict_get d (u "feat_word_count") = Some (VInt wc)
    /\ dict_get d (u "confidence_hint")
       = Some (VFloat (if wc <? 3 then 0.3%float
                       else if 512 <? wc then 0.6%float else 1.0%float))
    /\ dict_get d (u "is_valid_for_training")
       = Some (VBool ((5 <=? wc) && (wc <=? 512)))
    /\ (dict_get d (u "is_valid_for_training") = Some (VBool true) ->
        dict_get d (u "confidence_hint") = Some (VFloat 1.0%float)).
Proof.
  intros cleaned wc. eexists. split; [apply preprocess_example_unfold|].
  fold cleaned wc. rewrite !dict_get_update.
  unfold added_entries, compute_text_features.
  cbv zeta. cbn [map rev app fst snd].
  split; [dict_lookup; reflexivity|]. split; [dict_lookup; reflexivity|].
  split; [dict_lookup; reflexivity|]. split; [dict_lookup; reflexivity|].
  do 2 dict_lookup. intros E.
  assert (E' : (5 <=? wc) && (wc <=? 512) = true) by congruence.
  apply andb_true_iff in E' as [E1 E2].
  apply Z.leb_le in E1, E2.
  rewrite (proj2 (Z.ltb_ge wc 3)) by lia.
  rewrite (proj2 (Z.ltb_ge 512 wc)) by lia. reflexivity.
Qed.

(** X28. [preprocess_example] leaves every entry of the example in place
    whose key is none of the ten it writes. *)
Theorem preprocess_example_keeps (example : dict) (text_field k : str)
    (d : dict) :
  ~ In k added_keys ->
  preprocess_example example text_field = Some d ->
  dict_get d k = dict_get example k.
Proof.
  intros Hk H. rewrite preprocess_example_unfold in H. cbv zeta in H.
  set (d' := dict_update _ _) in H.
  assert (E : d = d') by congruence. subst d d'.
  rewrite dict_get_update, dict_get_absent; [reflexivity|].
  unfold keys. rewrite map_rev. intros Hin. apply in_rev in Hin.
  apply Hk. erewrite <- keys_added_entries. exact Hin.
Qed.
End PreprocessingFacts.

Section NormalizeFacts.
Context {U : UCD}.
Import MorphoNormalize.

(** X29. [_normalize_word] keeps the letters [а-яё] of the lower-cased
    word, in order, and drops every other character. *)
Theorem normalize_word_filters (word : str) :
  _normalize_word word = List.filter MorphoMetrics.cyr_lower (lower word)
  /\ Forall (fun c => MorphoMetrics.cyr_lower c = true)
            (_normalize_word word)
  /\ (length (_normalize_word word) <= length (lower word))%nat.
Proof.
  assert (E : _normalize_word word
              = List.filter MorphoMetrics.cyr_lower (lower word)).
  { unfold _normalize_word, sub. rewrite sub_from_set by lia.
    induction (lower word) as [|c l IH]; [reflexivity|].
    cbn [flat_map List.filter]. rewrite IH.
    destruct (MorphoMetrics.cyr_lower c); reflexivity. }
  split; [exact E|]. rewrite E. split.
  - apply List.Forall_forall. intros c Hc.
    now apply List.filter_In in Hc.
  - apply List.filter_length_le.
Qed.
End NormalizeFacts.

(** ** Instances *)

(** The properties above that have a premise, each at a short text, with
    the basic character tables, the square root for [pow] and the
    three-word analyzer. *)
Section Instances.
Import MorphoMetrics.

Lemma sentences_are_clean_witness :
  In (u "Кот спит")
     (@TextComplexityMetrics._split_sentences ucd_basic Stub.cat_and_dog)
  /\ u "Кот спит" <> [] /\ stripped (u "Кот спит")
  /\ Forall (fun c => TextComplexityMetrics.terminator c = false)
            (u "Кот спит").
Proof.
  assert (H : In (u "Кот спит")
                (@TextComplexityMetrics._split_sentences ucd_basic
                   Stub.cat_and_dog))
    by (vm_compute; auto).
  exact (conj H (@sentences_are_clean ucd_basic _ _ H)).
Defined.

Lemma text_without_terminators_is_one_sentence_witness :
  Forall (fun c => TextComplexityMetrics.terminator c = false)
         (u " Кот спит ")
  /\ @TextComplexityMetrics._split_sentences ucd_basic (u " Кот спит ")
     = [u "Кот спит"].
Proof.
  assert (H : Forall (fun c => TextComplexityMetrics.terminator c = false)
                     (u " Кот спит "))
    by (vm_compute; repeat constructor).
  split; [exact H|].
  rewrite (@text_without_terminators_is_one_sentence ucd_basic _ H).
  vm_compute. reflexivity.
Defined.

Lemma child_friendly_is_easy_witness :
  let result :=
    @Readability.ReadabilityIndexCalculator.compute ucd_basic
      Readability.ReadabilityIndexCalculator.libm_sqrt
      (u "Кот спит. Мама мыла раму.") in
  dict_get result (u "is_child_friendly") = Some (VBool true)
  /\ exists band flesch,
       dict_get result (u "flesch_level") = Some (VStr band)
       /\ In band (firstn 3 band_labels)
       /\ dict_get result (u "flesch_reading_ease") = Some (VFloat flesch)
       /\ fle 70 flesch.
Proof.
  intros result.
  assert (H : dict_get result (u "is_child_friendly") = Some (VBool true))
    by (vm_compute; reflexivity).
  exact (conj H (@child_friendly_is_easy ucd_basic
                   Readability.ReadabilityIndexCalculator.libm_sqrt _ H)).
Defined.

Lemma surface_average_keys_witness :
  In (u "avg_word_letters") surface_blank_keys
  /\ dict_get (@TextComplexityMetrics.compute ucd_basic (u "Кот спит."))
              (u "avg_word_letters") = None
  /\ dict_get (@TextComplexityMetrics.compute ucd_basic (u "Кот спит."))
              (u "char_count") = Some (VInt 9).
Proof.
  assert (H : In (u "avg_word_letters") surface_blank_keys)
    by (vm_compute; auto).
  split; [exact H|].
  exact (@surface_average_keys ucd_basic (u "Кот спит.") _ H).
Defined.

Lemma surface_without_sentences_witness :
  truthy (strip (u " ?! ")) = true
  /\ @TextComplexityMetrics._split_sentences ucd_basic (u " ?! ") = []
  /\ map snd (@TextComplexityMetrics.compute ucd_basic (u " ?! "))
     = [ VInt 0; VInt 0; VInt 0; VInt 0; VInt 0; VInt 4; VFloat 0.3%float ].
Proof.
  assert (H1 : truthy (strip (u " ?! ")) = true) by (vm_compute; reflexivity).
  assert (H2 : @TextComplexityMetrics._split_sentences ucd_basic (u " ?! ")
               = []) by (vm_compute; reflexivity).
  split; [exact H1|]. split; [exact H2|].
  exact (@surface_without_sentences ucd_basic _ H1 H2).
Defined.

Lemma classifier_keys_witness :
  exists d,
    fst (@MorphoMetrics.compute ucd_basic Stub.morph 100000 (u "Он спит.")
           init_cache) = Ok d
    /\ keys d = keys _empty_result.
Proof.
  destruct (fst (@MorphoMetrics.compute ucd_basic Stub.morph 100000
                   (u "Он спит.") init_cache)) as [d|e] eqn:E.
  - exists d. split; [reflexivity|].
    exact (@classifier_keys ucd_basic Stub.morph 100000 _ _ d E).
  - vm_compute in E. discriminate E.
Defined.

Lemma pos_counts_within_total_witness :
  exists d,
    fst (@MorphoMetrics.compute ucd_basic Stub.morph 100000
           (u "Он спит, кот спит.") init_cache) = Ok d
    /\ exists counts total,
         map (dict_get d) pos_count_keys
         = map (fun n => Some (VInt n)) counts
         /\ dict_get d (u "total_words") = Some (VInt total)
         /\ Forall (fun n => 0 <= n) counts
         /\ sum counts <= total
         /\ total = len (@MorphoMetrics._extract_words ucd_basic
                           (u "Он спит, кот спит.")).
Proof.
  destruct (fst (@MorphoMetrics.compute ucd_basic Stub.morph 100000
                   (u "Он спит, кот спит.") init_cache)) as [d|e] eqn:E.
  - exists d. split; [reflexivity|].
    exact (@pos_counts_within_total ucd_basic Stub.morph 100000 _ _ d E).
  - vm_compute in E. discriminate E.
Defined.

Lemma no_cyrillic_no_lookup_witness :
  Forall (fun ch => cyr_lower ch = false) (@lower ucd_basic (u "Hello, 123!"))
  /\ @MorphoMetrics.compute ucd_basic Stub.morph 100000 (u "Hello, 123!")
       init_cache
     = (Ok _empty_result, init_cache).
Proof.
  assert (H : Forall (fun ch => cyr_lower ch = false)
                     (@lower ucd_basic (u "Hello, 123!")))
    by (vm_compute; repeat constructor).
  split; [exact H|].
  exact (proj1 (@no_cyrillic_no_lookup ucd_basic Stub.morph 100000 _
                  init_cache H)).
Defined.

Lemma cache_holds_cyrillic_words_witness :
  forallb is_compute [CallCompute (u "Он спит.")] = true
  /\ @run ucd_basic Stub.morph 100000 [CallCompute (u "Он спит.")] init_cache
       !! u "он" = Some (u "NPRO")
  /\ u "он" <> []
  /\ Forall (fun ch => cyr_lower ch = true) (u "он")
  /\ pos_of (morph := Stub.morph) (u "он") = Ok (u "NPRO").
Proof.
  assert (H1 : forallb is_compute [CallCompute (u "Он спит.")] = true)
    by reflexivity.
  assert (H2 : @run ucd_basic Stub.morph 100000 [CallCompute (u "Он спит.")]
                 init_cache !! u "он" = Some (u "NPRO"))
    by (vm_compute; reflexivity).
  split; [exact H1|]. split; [exact H2|].
  exact (@cache_holds_cyrillic_words ucd_basic Stub.morph 100000 _ _ _ H1 H2).
Defined.

Lemma lookup_then_hit_witness :
  u "кот" <> []
  /\ Z.of_nat (size init_cache) < 100000
  /\ fst (@_get_pos Stub.morph 100000 (u "кот") init_cache) = Ok (u "NOUN")
  /\ let c' := snd (@_get_pos Stub.morph 100000 (u "кот") init_cache) in
     c' !! u "кот" = Some (u "NOUN")
     /\ @_get_pos Stub.morph 100000 (u "кот") c' = (Ok (u "NOUN"), c').
Proof.
  assert (H1 : u "кот" <> []) by (vm_compute; discriminate).
  assert (H2 : Z.of_nat (size init_cache) < 100000)
    by (vm_compute; reflexivity).
  assert (H3 : fst (@_get_pos Stub.morph 100000 (u "кот") init_cache)
               = Ok (u "NOUN")) by (vm_compute; reflexivity).
  split; [exact H1|]. split; [exact H2|]. split; [exact H3|].
  exact (@lookup_then_hit Stub.morph 100000 _ _ _ H1 H2 H3).
Defined.

Lemma perfective_ratio_guarded_witness :
  @_compute_perfective_verb_ratio Stub.morph [u "спит"; u "кот"]
  = Ok 0.0%float
  /\ exists p v,
       perfective_loop (morph := Stub.morph) [u "спит"; u "кот"] 0 0
       = Ok (p, v)
       /\ 0 <= p <= v /\ v <= len [u "спит"; u "кот"]
       /\ 0.0%float
          = (if (v =? 0)%Z then 0.0%float else py_round (truediv p v) 3)
       /\ (no_verb_on_top (morph := Stub.morph) [u "спит"; u "кот"] = true
           -> 0.0%float = 0.0%float).
Proof.
  assert (H : @_compute_perfective_verb_ratio Stub.morph
                [u "спит"; u "кот"] = Ok 0.0%float)
    by (vm_compute; reflexivity).
  exact (conj H (@perfective_ratio_guarded Stub.morph _ _ H)).
Defined.

Lemma classifier_counts_in_range_witness :
  exists d,
    fst (@MorphoMetrics.compute ucd_basic Stub.morph 100000
           (u "Кот спит.") init_cache) = Ok d
    /\ exists dim n_lemmas markers total,
         dict_get d (u "diminutive_noun_count") = Some (VInt dim)
         /\ dict_get d (u "unique_lemmas") = Some (VInt n_lemmas)
         /\ dict_get d (u "dialogue_markers") = Some (VInt markers)
         /\ dict_get d (u "total_words") = Some (VInt total)
         /\ 0 <= dim <= total /\ 0 <= n_lemmas <= total
         /\ 0 <= markers.
Proof.
  destruct (fst (@MorphoMetrics.compute ucd_basic Stub.morph 100000
                   (u "Кот спит.") init_cache)) as [d|e] eqn:E.
  - exists d. split; [reflexivity|].
    exact (@classifier_counts_in_range ucd_basic Stub.morph 100000 _ _ d E).
  - vm_compute in E. discriminate E.
Defined.

Lemma preprocess_example_keeps_witness :
  let example :=
    [(u "text", VStr (u "Кот  спит дома.")); (u "label", VInt 1)] in
  ~ In (u "label") added_keys
  /\ exists d,
       @Preprocessing.preprocess_example ucd_basic example (u "text")
       = Some d
       /\ dict_get d (u "label") = Some (VInt 1).
Proof.
  intros example.
  assert (Hk : ~ In (u "label") added_keys)
    by (vm_compute; intuition discriminate).
  split; [exact Hk|].
  destruct (@Preprocessing.preprocess_example ucd_basic example (u "text"))
    as [d|] eqn:E.
  - exists d. split; [reflexivity|].
    rewrite (@preprocess_example_keeps ucd_basic example (u "text")
               (u "label") d Hk E).
    vm_compute. reflexivity.
  - vm_compute in E. discriminate E.
Defined.

End Instances.
